(** * Laghos: mass operator, force integrator and adaptive time loop

    A shallow embedding of these pieces of the Laghos miniapp:

    - [kMassPAOperator] (kernels/kMassPAOperator.cpp): the partially
      assembled mass operator with essential-dof elimination;
    - [ForceIntegrator::AssembleElementMatrix2] (laghos_assembly.cpp): the
      local force matrix of one zone;
    - [DensityIntegrator::AssembleRHSElementVect] (laghos_assembly.cpp);
    - the time-integration loop of [main] (laghos.cpp) with its adaptive
      time step control and the lines it writes to [cout];
    - the problem setup of laghos.cpp: [rho0], [gamma_func], [v0], [e0] and
      the switch on [problem] in [main].

    C++ [double] is Rocq's primitive binary64 [float], so that every
    definition evaluates exactly as the compiled program does; C++ [int] is
    [Z] (no run considered here comes near the 32-bit range). *)

From Stdlib Require Import ZArith Lia List Floats String.
From stdpp Require Import base list functions.
Import ListNotations.

Set Warnings "-inexact-float".
Set Default Proof Using "Type".

Open Scope Z_scope.

(** ** Common data *)

(** [mfem::Vector]: an ordered sequence of doubles. *)
Abbreviation Vector := (list float).

(** [mfem::Array<int>]. *)
Abbreviation IntArray := (list Z).

(** What a C++ call can end in: normal return, a failed [assert] /
    [MFEM_ABORT] (a diagnosed abort carrying the text of the condition or
    message), or undefined behaviour. *)
Inductive undefined_behaviour :=
| NullDereference
| OutOfBounds
| DivisionByZero.

Inductive outcome (A : Type) :=
| Done (a : A)
| Abort (what : string)
| Undefined (ub : undefined_behaviour).
Arguments Done {A} a.
Arguments Abort {A} what.
Arguments Undefined {A} ub.

#[global] Instance outcome_bind : MBind outcome := fun A B k m =>
  match m with
  | Done a => k a
  | Abort w => Abort w
  | Undefined u => Undefined u
  end.

Definition assert (b : bool) (what : string) : outcome unit :=
  if b then Done tt else Abort what.

(** [mfem::Vector::SetSubVector(const Array<int> &dofs, double value)]
    (MFEM library code): for each entry [j] of [dofs] in turn, writes
    [value] at index [j] when [j >= 0] and at index [-1-j] otherwise.  An
    index outside the vector is an out-of-bounds write. *)
Definition dof_index (j : Z) : Z := if 0 <=? j then j else -1 - j.

Fixpoint SetSubVector (dofs : IntArray) (value : float) (v : Vector)
  : outcome Vector :=
  match dofs with
  | [] => Done v
  | j :: rest =>
      if dof_index j <? Z.of_nat (length v)
      then SetSubVector rest value (<[Z.to_nat (dof_index j) := value]> v)
      else Undefined OutOfBounds
  end.

(** Caller-owned vectors live in a store indexed by object identity, so that
    two references to the same [Vector] object are the same key. *)
Abbreviation vref := nat.
Abbreviation vstore := (vref -> Vector).

(** ** kMassPAOperator *)
Module MassPA.

(** The members of [kMassPAOperator] that its methods read or write.
    [massOperator] is the [mfem::Operator*] produced by
    [PABilinearForm::FormOperator]; it is [NULL] ([None]) until [Setup], and
    afterwards its [Mult] computes [y = A(x)]. *)
Record kMassPAOperator := mk {
  ess_tdofs_count : Z;
  ess_tdofs : IntArray;
  distX : Vector;
  massOperator : option (Vector -> Vector);
}.

(** Constructor: [ess_tdofs_count(0), ess_tdofs(0), massOperator(NULL)];
    [distX] is default-constructed (empty). *)
Definition new : kMassPAOperator :=
  {| ess_tdofs_count := 0; ess_tdofs := []; distX := []; massOperator := None |}.

(** [Setup]: the integrator is built from [quad_data->rho0DetJ0w] and
    [FormOperator] stores the resulting operator in [massOperator].  The
    action [A] of that operator is the caller's. *)
Definition Setup (A : Vector -> Vector) (op : kMassPAOperator) : kMassPAOperator :=
  {| ess_tdofs_count := ess_tdofs_count op; ess_tdofs := ess_tdofs op;
     distX := distX op; massOperator := Some A |}.

Section SetEssentialTrueDofs.

(** [Array::SetSize] does not initialise new entries: their values are
    whatever the storage holds. *)
Variable indeterminate : nat -> Z.

Definition SetSize (n : Z) (a : IntArray) : IntArray :=
  take (Z.to_nat n) a
  ++ map indeterminate (seq (length a) (Z.to_nat n - length a)).

(** [others] is the sum of the dof counts the other MPI ranks contribute to
    [MPI_Allreduce(..., MPI_SUM, comm)]. *)
Definition SetEssentialTrueDofs (others : Z) (dofs : IntArray)
    (op : kMassPAOperator) : outcome kMassPAOperator :=
  let count := Z.of_nat (length dofs) in
  sized ←
    (if Z.of_nat (length (ess_tdofs op)) =? 0 then
       let global_ess_tdofs_count := count + others in
       _ ← assert (0 <? global_ess_tdofs_count) "global_ess_tdofs_count>0";
       Done (SetSize global_ess_tdofs_count (ess_tdofs op))
     else
       _ ← assert (count <=? Z.of_nat (length (ess_tdofs op)))
             "ess_tdofs_count<=ess_tdofs.Size()";
       Done (ess_tdofs op));
  if count =? 0 then
    Done {| ess_tdofs_count := count; ess_tdofs := sized;
            distX := distX op; massOperator := massOperator op |}
  else
    (* assert(dofs.GetData()): a nonempty array has storage *)
    Done {| ess_tdofs_count := count; ess_tdofs := dofs;
            distX := distX op; massOperator := massOperator op |}.

End SetEssentialTrueDofs.

(** [EliminateRHS(b)]. *)
Definition EliminateRHS (op : kMassPAOperator) (st : vstore) (b : vref)
  : outcome vstore :=
  if 0 <? ess_tdofs_count op then
    b' ← SetSubVector (ess_tdofs op) 0%float (st b);
    Done (<[b := b']> st)
  else Done st.

(** [Mult(const Vector &x, Vector &y) const].  [distX] is a [mutable] member,
    so the operator itself is part of the result. *)
Definition Mult (op : kMassPAOperator) (st : vstore) (x y : vref)
  : outcome (kMassPAOperator * vstore) :=
  (* distX.SetSize(x.Size()): entries kept up to the new size, new ones not
     initialised; the assignment below overwrites them all, 0 stands for them *)
  let resized :=
    if negb (Nat.eqb (length (distX op)) (length (st x)))
    then resize (length (st x)) 0%float (distX op)
    else distX op in
  _ ← assert (Nat.eqb (length resized) (length (st x)))
        "distX.Size()==x.Size()";
  (* distX = x *)
  let copied := st x in
  dX ← (if negb (ess_tdofs_count op =? 0)
        then SetSubVector (ess_tdofs op) 0%float copied
        else Done copied);
  match massOperator op with
  | None => Undefined NullDereference
  | Some A =>
      let y1 := A dX in
      y2 ← (if negb (ess_tdofs_count op =? 0)
            then SetSubVector (ess_tdofs op) 0%float y1
            else Done y1);
      Done ({| ess_tdofs_count := ess_tdofs_count op;
               ess_tdofs := ess_tdofs op;
               distX := dX; massOperator := massOperator op |},
            <[y := y2]> st)
  end.

End MassPA.

(** ** ForceIntegrator *)
Module Force.

(** [mfem::DenseMatrix]: [height] x [width] doubles stored column by column,
    entry [(i,j)] at [data[i + j*height]]. *)
Record DenseMatrix := mkDM {
  height : nat;
  width : nat;
  data : list float;
}.

(** [m(i,j)] as an rvalue and [m(i,j) = v]. *)
Definition get (m : DenseMatrix) (i j : nat) : float :=
  default 0%float (data m !! (i + j * height m)%nat).

Definition set (m : DenseMatrix) (i j : nat) (v : float) : DenseMatrix :=
  {| height := height m; width := width m;
     data := <[(i + j * height m)%nat := v]> (data m) |}.

(** [m.SetSize(h, w)] keeps the storage it has (zero-filled when it has to
    grow) and [m = c] writes [c] to every entry. *)
Definition SetSize (h w : nat) (m : DenseMatrix) : DenseMatrix :=
  {| height := h; width := w; data := resize (h * w) 0%float (data m) |}.

Definition assign (c : float) (m : DenseMatrix) : DenseMatrix :=
  {| height := height m; width := width m;
     data := replicate (length (data m)) c |}.

(** [v(i)] for a [Vector]. *)
Definition at_ (v : Vector) (i : nat) : float := default 0%float (v !! i).

(** [for (int i = 0; i < n; i++) body]: the loop state threaded through
    [body 0], [body 1], ... *)
Definition for_ {A} (n : nat) (body : nat -> A -> A) (a : A) : A :=
  fold_left (fun acc i => body i acc) (seq 0 n) a.

(** [AddMultVWt(v, w, VWt)] (MFEM library code): [VWt += v w^t]. *)
Definition AddMultVWt (v w : Vector) (VWt : DenseMatrix) : DenseMatrix :=
  for_ (length v) (fun i VWt =>
    let vi := at_ v i in
    for_ (length w) (fun j VWt =>
      set VWt i j (get VWt i j + vi * at_ w j)%float) VWt) VWt.

Section AssembleElementMatrix2.

(** [Tr.ElementNo], [IntRule->GetNPoints()], [trial_fe.GetDim()],
    [trial_fe.GetDof()], [test_fe.GetDof()]. *)
Variables (e nqp dim h1dofs_cnt l2dofs_cnt : nat).

(** [trial_fe.CalcDShape(IntRule->IntPoint(q), vshape)] fills the
    [h1dofs_cnt] x [dim] matrix [vshape]; [CalcDShape q i gd] is the entry
    [(i,gd)] it writes.  Likewise [test_fe.CalcShape(ip, shape)] fills the
    vector [shape] of size [l2dofs_cnt]. *)
Variable CalcDShape : nat -> nat -> nat -> float.
Variable CalcShape : nat -> nat -> float.

(** The member [stressJinvT], a [DenseTensor]:
    [stressJinvT vd eq gd] is [stressJinvT(vd)(eq, gd)]. *)
Variable stressJinvT : nat -> nat -> nat -> float.

(** The body of the [i]/[vd]/[gd] loops at quadrature point [q]. *)
Definition form_loc_force (q : nat) (loc_force : DenseMatrix) : DenseMatrix :=
  for_ h1dofs_cnt (fun i loc_force =>
    for_ dim (fun vd loc_force =>
      let loc_force := set loc_force i vd 0%float in
      for_ dim (fun gd loc_force =>
        let eq := (e * nqp + q)%nat in
        set loc_force i vd
          (get loc_force i vd + stressJinvT vd eq gd * CalcDShape q i gd)%float)
        loc_force) loc_force) loc_force.

(** [elmat] is the caller's matrix.  The local [loc_force(h1dofs_cnt, dim)]
    is constructed zero-filled, and [Vloc_force] aliases
    [loc_force.Data()], so it is [data loc_force] wherever it is read. *)
Definition AssembleElementMatrix2 (elmat : DenseMatrix) : DenseMatrix :=
  let elmat := SetSize l2dofs_cnt (h1dofs_cnt * dim) elmat in
  let elmat := assign 0%float elmat in
  let loc_force :=
    {| height := h1dofs_cnt; width := dim;
       data := replicate (h1dofs_cnt * dim) 0%float |} in
  fst (for_ nqp (fun q '(elmat, loc_force) =>
         let loc_force := form_loc_force q loc_force in
         let shape := map (CalcShape q) (seq 0 l2dofs_cnt) in
         (AddMultVWt shape (data loc_force) elmat, loc_force))
       (elmat, loc_force)).

(** The specification's formula, entry by entry, to compare the loops with:
    the contraction of the stress with the gradient of kinematic basis
    function [i], component [vd], at point [q] ... *)
Definition stress_grad (q i vd : nat) : float :=
  for_ dim (fun gd acc =>
    (acc + stressJinvT vd (e * nqp + q)%nat gd * CalcDShape q i gd)%float)
    0%float.

(** ... times the value of the thermodynamic basis function [r] there,
    summed over the quadrature points of the zone. *)
Definition force_entry (r i vd : nat) : float :=
  for_ nqp (fun q acc => (acc + CalcShape q r * stress_grad q i vd)%float)
    0%float.

End AssembleElementMatrix2.

End Force.

(** ** The time-integration loop of [main] *)
Module TimeLoop.

(** What the root rank writes to [cout] in the loop: the line
    "Repeating step ti" of a rejected attempt, and the line
    "step ti, t = ..., dt = ..., |e| = ..." after an accepted one. *)
Inductive message :=
| RepeatingStep (ti : Z)
| Step (ti : Z) (t dt sqrt_norm : float).

Section Main.

(** [BlockVector S] and the [LagrangianHydroOperator hydro], whose
    quadrature data and time step estimate change as it is used. *)
Variables StateVec Hydro : Type.

Variable ResetTimeStepEstimate : Hydro -> Hydro.
Variable GetTimeStepEstimate : Hydro -> StateVec -> Hydro * float.
Variable ResetQuadratureData : Hydro -> Hydro.

(** [ode_solver->Step(S, t, dt)] for the explicit Runge-Kutta solvers [main]
    can select: [ode_step h S t dt] is the operator (it is evaluated by the
    solver) and [S] afterwards; the solver leaves [dt] as it is and ends
    with [t += dt]. *)
Variable ode_step : Hydro -> StateVec -> float -> float -> Hydro * StateVec.

Variable t_final : float.
Variable max_tsteps : Z.

(** The option [vis_steps]; the sum over the ranks of [e_gf * e_gf] on the
    state ([lnorm] and the [MPI_Allreduce] of line 561); and what lines
    580-654 do to [hydro] when they hand the fields to GLVis, VisIt and the
    files ([hydro.ComputeDensity], [hydro.GetPressure]; the identity when
    the options [visualization], [visit] and [gfprint] are off). *)
Variable vis_steps : Z.
Variable norm : StateVec -> float.
Variable Visualize : Hydro -> StateVec -> Hydro.

(** [std::numeric_limits<double>::epsilon()]. *)
Definition epsilon : float := 0x1p-52%float.

Record vars := mkVars {
  S : StateVec;
  S_old : StateVec;
  t : float;
  t_old : float;
  dt : float;
  last_step : bool;
  steps : Z;
  ti : Z;
  hydro : Hydro;
  cout : list message;
}.

(** Lines 520-525: the step that will be tried and whether this iteration
    is flagged as the last one. *)
Definition clamp (v : vars) : float * bool :=
  let '(dt1, last1) :=
    if (t_final <=? t v + dt v)%float
    then ((t_final - t v)%float, true)
    else (dt v, last_step v) in
  (dt1, if steps v =? max_tsteps then true else last1).

(** Lines 528-536: the step attempt and the estimate on the new state. *)
Definition attempt (v : vars) : Hydro * StateVec * float :=
  let h := ResetTimeStepEstimate (hydro v) in
  let '(h, S1) := ode_step h (S v) (t v) (fst (clamp v)) in
  let '(h, dt_est) := GetTimeStepEstimate h S1 in
  (h, S1, dt_est).

Definition rejected (v : vars) : bool :=
  (snd (attempt v) <? fst (clamp v))%float.

(** The step control, lines 520-551 of the loop body.  A rejected attempt
    ends the pass here ([ti--; continue]); after an accepted one the pass
    goes on to [report]. *)
Definition body (v : vars) : outcome vars :=
  let '(dt1, last1) := clamp v in
  let S_old1 := S v in
  let t_old1 := t v in
  let '(h, S1, dt_est) := attempt v in
  let t1 := (t v + dt1)%float in
  let steps1 := steps v + 1 in
  if (dt_est <? dt1)%float then
    let dt2 := (dt1 * 0.85)%float in
    if (dt2 <? epsilon)%float then Abort "The time step crashed!"
    else
      Done {| S := S_old1; S_old := S_old1; t := t_old1; t_old := t_old1;
              dt := dt2;
              last_step := if steps1 <? max_tsteps then false else last1;
              steps := steps1;
              ti := ti v - 1;
              hydro := ResetQuadratureData h;
              cout := cout v ++ [RepeatingStep (ti v)] |}
  else
    Done {| S := S1; S_old := S_old1; t := t1; t_old := t_old1;
            dt := if (1.25 * dt1 <? dt_est)%float then (dt1 * 1.02)%float
                  else dt1;
            last_step := last1;
            steps := steps1;
            ti := ti v;
            hydro := h;
            cout := cout v |}.

(** The loop increment [ti++], reached at the end of the body and by
    [continue] alike. *)
Definition increment (v : vars) : vars :=
  {| S := S v; S_old := S_old v; t := t v; t_old := t_old v; dt := dt v;
     last_step := last_step v; steps := steps v; ti := ti v + 1;
     hydro := hydro v; cout := cout v |}.

(** Lines 552-655, the rest of the body after an accepted attempt, on the
    variables as the step control leaves them.  [pmesh->NewNodes] touches
    none of them.  When the pass is flagged as the last one or [ti] is a
    multiple of [vis_steps], the root rank writes the "step" line with the
    new [t], the [dt] of the next pass and [sqrt(norm)], and the fields are
    handed on.  [ti % vis_steps] is evaluated only when [last_step] is
    clear, and is undefined for [vis_steps = 0]. *)
Definition report (v : vars) : outcome vars :=
  c ← (if last_step v then Done true
       else if vis_steps =? 0 then Undefined DivisionByZero
       else Done (Z.rem (ti v) vis_steps =? 0));
  if (c : bool) then
    Done {| S := S v; S_old := S_old v; t := t v; t_old := t_old v;
            dt := dt v; last_step := last_step v; steps := steps v;
            ti := ti v;
            hydro := Visualize (hydro v) (S v);
            cout := cout v ++ [Step (ti v) (t v) (dt v)
                                 (PrimFloat.sqrt (norm (S v)))] |}
  else Done v.

(** One pass through the loop body and the loop increment: [continue]
    skips [report]. *)
Definition iteration (v : vars) : outcome vars :=
  v' ← body v;
  v' ← (if rejected v then Done v' else report v');
  Done (increment v').

(** [for (int ti = 1; !last_step; ti++) { ... }], run for at most [fuel]
    iterations: [None] when the loop is still running after them. *)
Fixpoint loop (fuel : nat) (v : vars) : option (outcome vars) :=
  if last_step v then Some (Done v)
  else match fuel with
       | O => None
       | Datatypes.S n =>
           match iteration v with
           | Done v' => loop n v'
           | Abort w => Some (Abort w)
           | Undefined u => Some (Undefined u)
           end
       end.

(** The variables as the loop is entered (lines 508-514); [t_old] is not
    initialised there, [t_old0] is the value it happens to hold. *)
Definition init (h : Hydro) (S0 : StateVec) (t_old0 : float) : vars :=
  let h := ResetTimeStepEstimate h in
  let '(h, dt0) := GetTimeStepEstimate h S0 in
  {| S := S0; S_old := S0; t := 0%float; t_old := t_old0; dt := dt0;
     last_step := false; steps := 0; ti := 1; hydro := h; cout := [] |}.

(** The state the loop is in after [n] full iterations, if it gets there. *)
Fixpoint after (n : nat) (v : vars) : option vars :=
  match n with
  | O => Some v
  | Datatypes.S n =>
      if last_step v then None
      else match iteration v with
           | Done v' => after n v'
           | _ => None
           end
  end.

(** Every attempt the loop makes from [v] on is rejected. *)
Definition always_rejected (v : vars) : Prop :=
  forall n v', after n v = Some v' -> last_step v' = false ->
    rejected v' = true.

End Main.

End TimeLoop.

(** ** Vocabulary of the statements *)

(** The indices [SetSubVector] writes for the array [dofs], and the vector
    with those entries overwritten. *)
Definition pinned (dofs : IntArray) (i : nat) : bool :=
  existsb (fun j => Nat.eqb (Z.to_nat (dof_index j)) i) dofs.

Definition eliminate (dofs : IntArray) (c : float) (v : Vector) : Vector :=
  imap (fun i a => if pinned dofs i then c else a) v.

Definition dofs_within (n : nat) (dofs : IntArray) : Prop :=
  Forall (fun j => dof_index j < Z.of_nat n) dofs.

(** ** Small instances to evaluate on *)

(** A diagonal mass matrix (every entry doubled) over three dofs, the first
    and the last pinned. *)
Definition twice (v : Vector) : Vector := map (fun a => (a * 2)%float) v.

Definition op3 : MassPA.kMassPAOperator :=
  MassPA.mk 2 [0; 2] [] (Some twice).

Definition store3 (x0 : Vector) : vstore :=
  fun r => match r with O => x0 | _ => [0; 0; 0]%float end.

(** One zone with two quadrature points in two dimensions, two kinematic and
    two thermodynamic basis functions, and the stress of a unit pressure,
    [-1.0 I]. *)
Module Zone.
Definition dshape (q i gd : nat) : float :=
  match q, i, gd with
  | O, O, O => 1 | O, O, _ => 0.5 | O, _, O => -1 | O, _, _ => 0.25
  | _, O, O => 2 | _, O, _ => -0.5 | _, _, O => 0.125 | _, _, _ => 4
  end%float.
Definition shape (q r : nat) : float :=
  match q, r with
  | O, O => 0.75 | O, _ => 0.25 | _, O => 0.5 | _, _ => 1.5
  end%float.
Definition stress (vd eq gd : nat) : float :=
  if Nat.eqb vd gd then (-1)%float else 0%float.

Definition elmat : Force.DenseMatrix :=
  Force.AssembleElementMatrix2 0 2 2 2 2 dshape shape stress
    (Force.mkDM 0 0 []).
End Zone.

(** A scalar problem for the time loop: the state is one double, the solver
    is forward Euler for [dS/dt = 1], the operator state records whether the
    quadrature data is current, and the time step estimate is a given
    function of the state. *)
Module Scalar.
Section Scalar.
Variable est : float -> float.
Variable t_final : float.
Variable max_tsteps : Z.

Definition get_estimate (h : bool) (s : float) : bool * float := (true, est s).
Definition euler (h : bool) (s t dt : float) : bool * float :=
  (h, (s + dt * 1)%float).
Definition invalidate (h : bool) : bool := false.

(** [vis_steps] at its default, the norm of the one-entry state, and no
    visualisation. *)
Definition vis_steps : Z := 5.
Definition norm (s : float) : float := (s * s)%float.
Definition show (h : bool) (s : float) : bool := h.

Definition state (s s_old t t_old dt : float) (last_step : bool)
    (steps ti : Z) (current : bool) (out : list TimeLoop.message)
  : TimeLoop.vars float bool :=
  TimeLoop.mkVars float bool s s_old t t_old dt last_step steps ti current out.

Definition start (s0 dt0 : float) : TimeLoop.vars float bool :=
  state s0 s0 0 0 dt0 false 0 1 true [].

Definition clamp := TimeLoop.clamp float bool t_final max_tsteps.
Definition attempt := TimeLoop.attempt float bool id get_estimate euler t_final max_tsteps.
Definition rejected := TimeLoop.rejected float bool id get_estimate euler t_final max_tsteps.
Definition iteration :=
  TimeLoop.iteration float bool id get_estimate invalidate euler t_final max_tsteps
    vis_steps norm show.
Definition loop :=
  TimeLoop.loop float bool id get_estimate invalidate euler t_final max_tsteps
    vis_steps norm show.
Definition after :=
  TimeLoop.after float bool id get_estimate invalidate euler t_final max_tsteps
    vis_steps norm show.
End Scalar.
Arguments clamp t_final%_float max_tsteps%_Z v.
Arguments attempt est%_function t_final%_float max_tsteps%_Z v.
Arguments rejected est%_function t_final%_float max_tsteps%_Z v.
Arguments iteration est%_function t_final%_float max_tsteps%_Z v.
Arguments loop est%_function t_final%_float max_tsteps%_Z fuel%_nat v.
Arguments after est%_function t_final%_float max_tsteps%_Z n%_nat v.
End Scalar.

(** ** Binary64 vocabulary *)

(** The exponent of the last place of a binary64 number with [k] digits
    above its scale. *)
Definition fexp64 (k : Z) : Z := Z.max (k - 53) (-1074).

(** The mantissa of the double nearest to 0.85; its exponent is -53. *)
Definition m085 : positive := 7656119366529843.

(** How far a double is above zero, in units of [2^-1127]; [0] for
    anything that is not a positive finite double. *)
Definition magnitude (x : float) : nat :=
  match Prim2SF x with
  | S754_finite false m e => Z.to_nat (Zpos m * 2 ^ (e + 1127))
  | _ => O
  end.



(** A matrix whose storage has the size its dimensions ask for. *)
Definition shaped (h w : nat) (m : Force.DenseMatrix) : Prop :=
  Force.height m = h /\ Force.width m = w
  /\ length (Force.data m) = (h * w)%nat.

(** ** DensityIntegrator *)
Module Density.

(** [Vector::operator*=(double c)] and [Vector::operator+=(const Vector &w)]
    (MFEM library code): entry by entry, [v(i) *= c] and [v(i) += w(i)]. *)
Definition scale (c : float) (v : Vector) : Vector :=
  map (fun a => (a * c)%float) v.

Definition add_to (v w : Vector) : Vector :=
  imap (fun i a => (a + Force.at_ w i)%float) v.

Section AssembleRHSElementVect.

(** [Tr.ElementNo], [IntRule->GetNPoints()], [fe.GetDof()]. *)
Variables (e nqp dof : nat).

(** [fe.CalcShape(IntRule->IntPoint(q), shape)] fills [shape]; [CalcShape q i]
    is the entry [i] it writes.  [rho0DetJ0w] is the member vector. *)
Variable CalcShape : nat -> nat -> float.
Variable rho0DetJ0w : nat -> float.

(** [elvect.SetSize(dof)] keeps the entries it has up to the new size (0
    stands for the new, uninitialised ones) and [elvect = 0.0] overwrites
    them all.  The local [shape] is filled anew at every point. *)
Definition AssembleRHSElementVect (elvect : Vector) : Vector :=
  let elvect := resize dof 0%float elvect in
  let elvect := replicate (length elvect) 0%float in
  Force.for_ nqp (fun q elvect =>
    let shape := map (CalcShape q) (seq 0 dof) in
    let shape := scale (rho0DetJ0w (e * nqp + q)%nat) shape in
    add_to elvect shape) elvect.

(** The quadrature sum for entry [i], to compare the loop with. *)
Definition density_entry (i : nat) : float :=
  Force.for_ nqp (fun q acc =>
    (acc + CalcShape q i * rho0DetJ0w (e * nqp + q)%nat)%float) 0%float.

End AssembleRHSElementVect.

End Density.

(** ** The problem setup functions of laghos.cpp *)
Module Problem.

(** [x(i)] and [v(i) = a] on an [mfem::Vector]: outside the vector the
    access is out of bounds. *)
Definition rd (x : Vector) (i : nat) : outcome float :=
  match x !! i with
  | Some a => Done a
  | None => Undefined OutOfBounds
  end.

Definition wr (v : Vector) (i : nat) (a : float) : outcome Vector :=
  if (i <? length v)%nat then Done (<[i := a]> v)
  else Undefined OutOfBounds.

(** [v = 0.0]. *)
Definition zero (v : Vector) : Vector := replicate (length v) 0%float.

(** The comparisons of a coordinate with a constant, and the short-circuit
    [&&] and [||]: the right operand is read only when the left one leaves
    the result open. *)
Definition lt (x : Vector) (i : nat) (c : float) : outcome bool :=
  a ← rd x i; Done (a <? c)%float.
Definition gt (x : Vector) (i : nat) (c : float) : outcome bool :=
  a ← rd x i; Done (c <? a)%float.
Definition ge (x : Vector) (i : nat) (c : float) : outcome bool :=
  a ← rd x i; Done (c <=? a)%float.
Definition le (x : Vector) (i : nat) (c : float) : outcome bool :=
  a ← rd x i; Done (a <=? c)%float.

Definition and_ (a b : outcome bool) : outcome bool :=
  c ← a; if (c : bool) then b else Done false.
Definition or_ (a b : outcome bool) : outcome bool :=
  c ← a; if (c : bool) then Done true else b.

Definition bad_id {A} : outcome A := Abort "Bad number given for problem id!".

(** [M_PI]. *)
Definition M_PI : float := 3.14159265358979323846%float.

(** [static double rad(double x, double y)]. *)
Definition rad (x y : float) : float := PrimFloat.sqrt (x * x + y * y).

Section Setup.

Local Open Scope float_scope.

(** The static variables [problem] and [dim]. *)
Variables problem dim : Z.

(** The functions of the C math library that the setup calls. *)
Variables sin cos exp log : float -> float.
Variable pow : float -> float -> float.

Definition rho0 (x : Vector) : outcome float :=
  match problem with
  | 0%Z => Done 1
  | 1%Z => Done 1
  | 2%Z => c ← lt x 0 0.5; Done (if (c : bool) then 1 else 0.1)
  | 3%Z =>
      if (dim =? 2)%Z then
        c ← and_ (gt x 0 1) (gt x 1 1.5); Done (if (c : bool) then 0.125 else 1)
      else
        c ← and_ (gt x 0 1)
              (or_ (and_ (lt x 1 1.5) (lt x 2 1.5))
                   (and_ (gt x 1 1.5) (gt x 2 1.5)));
        Done (if (c : bool) then 0.125 else 1)
  | 4%Z => Done 1
  | 5%Z =>
      c1 ← and_ (ge x 0 0.5) (ge x 1 0.5);
      if (c1 : bool) then Done 0.5313 else
      c2 ← and_ (lt x 0 0.5) (lt x 1 0.5);
      if (c2 : bool) then Done 0.8 else Done 1
  | 6%Z =>
      c1 ← and_ (lt x 0 0.5) (ge x 1 0.5);
      if (c1 : bool) then Done 2 else
      c2 ← and_ (ge x 0 0.5) (lt x 1 0.5);
      if (c2 : bool) then Done 3 else Done 1
  | 7%Z => c ← ge x 1 0; Done (if (c : bool) then 2 else 1)
  | 8%Z => c ← lt x 0 0.5; Done (if (c : bool) then 1 else 0.125)
  | 9%Z => c ← lt x 0 0.7; Done (if (c : bool) then 1000 else 50)
  | 10%Z => c ← and_ (gt x 0 1.1) (gt x 1 1.5); Done (if (c : bool) then 0.125 else 1)
  | _ => bad_id
  end.

Definition gamma_func (x : Vector) : outcome float :=
  match problem with
  | 0%Z => Done (5 / 3)
  | 1%Z => Done 1.4
  | 2%Z => Done 1.4
  | 3%Z => c ← and_ (gt x 0 1) (le x 1 1.5); Done (if (c : bool) then 1.4 else 1.5)
  | 4%Z => Done (5 / 3)
  | 5%Z => Done 1.4
  | 6%Z => Done 1.4
  | 7%Z => Done (5 / 3)
  | 8%Z => c ← lt x 0 0.5; Done (if (c : bool) then 2 else 1.4)
  | 9%Z => c ← lt x 0 0.7; Done (if (c : bool) then 4.4 else 1.4)
  | 10%Z => Done 0
  | _ => bad_id
  end.

(** [p / rho0(x) / (gamma_func(x) - 1.0)]. *)
Definition over_rho_gamma (p : float) (x : Vector) : outcome float :=
  rho ← rho0 x; gamma ← gamma_func x;
  Done (p / rho / (gamma - 1))%float.

(** The four quadrant tests that end problems 5 and 6, each returning its
    value, and the abort behind them. *)
Definition quadrants {A} (x : Vector) (pp mp mm pm : outcome A) (what : string)
  : outcome A :=
  c1 ← and_ (ge x 0 0.5) (ge x 1 0.5); if (c1 : bool) then pp else
  c2 ← and_ (lt x 0 0.5) (ge x 1 0.5); if (c2 : bool) then mp else
  c3 ← and_ (lt x 0 0.5) (lt x 1 0.5); if (c3 : bool) then mm else
  c4 ← and_ (ge x 0 0.5) (lt x 1 0.5); if (c4 : bool) then pm else
  Abort what.

Definition e0 (x : Vector) : outcome float :=
  match problem with
  | 0%Z =>
      let denom := (2 / 3)%float in
      val ←
        (if Nat.eqb (length x) 2 then
           x0 ← rd x 0; x1 ← rd x 1;
           Done (1 + (cos (2 * M_PI * x0) + cos (2 * M_PI * x1)) / 4)%float
         else
           x2 ← rd x 2; x0 ← rd x 0; x1 ← rd x 1;
           Done (100 + ((cos (2 * M_PI * x2) + 2)
                        * (cos (2 * M_PI * x0) + cos (2 * M_PI * x1)) - 2)
                       / 16)%float);
      Done (val / denom)%float
  | 1%Z => Done 0%float
  | 2%Z =>
      c ← lt x 0 0.5;
      if (c : bool) then over_rho_gamma 1 x else over_rho_gamma 0.1 x
  | 3%Z =>
      c ← gt x 0 1;
      if (c : bool) then over_rho_gamma 0.1 x else over_rho_gamma 1 x
  | 4%Z =>
      x0 ← rd x 0; x1 ← rd x 1;
      let r := rad x0 x1 in
      let rsq := (x0 * x0 + x1 * x1)%float in
      let gamma := (5 / 3)%float in
      if (r <? 0.2)%float then
        Done ((5 + 25 / 2 * rsq) / (gamma - 1))%float
      else if (r <? 0.4)%float then
        let t1 := (9 - 4 * log 0.2 + 25 / 2 * rsq)%float in
        let t2 := (20 * r - 4 * log r)%float in
        Done ((t1 - t2) / (gamma - 1))%float
      else Done ((3 + 4 * log 2) / (gamma - 1))%float
  | 5%Z =>
      irg ← over_rho_gamma 1 x;
      quadrants x (Done (0.4 * irg)) (Done (1 * irg)) (Done (1 * irg))
        (Done (1 * irg)) "Error in problem 5!"
  | 6%Z =>
      irg ← over_rho_gamma 1 x;
      quadrants x (Done (1 * irg)) (Done (1 * irg)) (Done (1 * irg))
        (Done (1 * irg)) "Error in problem 5!"
  | 7%Z =>
      rho ← rho0 x; gamma ← gamma_func x; x1 ← rd x 1;
      Done ((6 - rho * x1) / (gamma - 1) / rho)%float
  | 8%Z =>
      c ← lt x 0 0.5;
      if (c : bool) then over_rho_gamma 2 x else over_rho_gamma 0.1 x
  | 9%Z =>
      c ← lt x 0 0.7;
      if (c : bool) then
        gamma ← gamma_func x; over_rho_gamma (1.0e9 + gamma * 6.0e8) x
      else over_rho_gamma 1.0e5 x
  | 10%Z => Done 0%float
  | _ => bad_id
  end.

(** [v(0) = a, v(1) = b]. *)
Definition set01 (v : Vector) (a b : float) : outcome Vector :=
  v ← wr v 0 a; wr v 1 b.

Definition v0 (x v : Vector) : outcome Vector :=
  match problem with
  | 0%Z =>
      x0 ← rd x 0; x1 ← rd x 1;
      v ← wr v 0 (sin (M_PI * x0) * cos (M_PI * x1))%float;
      v ← wr v 1 (- cos (M_PI * x0) * sin (M_PI * x1))%float;
      if Nat.eqb (length x) 3 then
        x2 ← rd x 2;
        a ← rd v 0; v ← wr v 0 (a * cos (M_PI * x2))%float;
        b ← rd v 1; v ← wr v 1 (b * cos (M_PI * x2))%float;
        wr v 2 0%float
      else Done v
  | 1%Z | 2%Z | 3%Z => Done (zero v)
  | 4%Z =>
      let v := zero v in
      x0 ← rd x 0; x1 ← rd x 1;
      let r := rad x0 x1 in
      if (r <? 0.2)%float then
        set01 v (5 * x1)%float (-5 * x0)%float
      else if (r <? 0.4)%float then
        set01 v (2 * x1 / r - 5 * x1)%float (-2 * x0 / r + 5 * x0)%float
      else Done v
  | 5%Z =>
      let v := zero v in
      x0 ← rd x 0; x1 ← rd x 1;
      let atn := pow (x0 * (1 - x0) * 4 * x1 * (1 - x1) * 4)%float 0.4%float in
      quadrants x
        (set01 v (0 * atn)%float (0 * atn)%float)
        (set01 v (0.7276 * atn)%float (0 * atn)%float)
        (set01 v (0 * atn)%float (0 * atn)%float)
        (set01 v (0 * atn)%float (0.7276 * atn)%float)
        "Error in problem 5!"
  | 6%Z =>
      let v := zero v in
      x0 ← rd x 0; x1 ← rd x 1;
      let atn := pow (x0 * (1 - x0) * 4 * x1 * (1 - x1) * 4)%float 0.4%float in
      quadrants x
        (set01 v (0.75 * atn)%float (-0.5 * atn)%float)
        (set01 v (0.75 * atn)%float (0.5 * atn)%float)
        (set01 v (-0.75 * atn)%float (0.5 * atn)%float)
        (set01 v (-0.75 * atn)%float (-0.5 * atn)%float)
        "Error in problem 6!"
  | 7%Z =>
      let v := zero v in
      x1 ← rd x 1; x0 ← rd x 0;
      wr v 1 (0.02 * exp (-2 * M_PI * x1 * x1) * cos (2 * M_PI * x0))%float
  | 8%Z | 9%Z | 10%Z => Done (zero v)
  | _ => bad_id
  end.

(** The switch on [problem] in [main] (lines 410-426): [source], [visc] and
    [vorticity] for the operator, with [mesh_dim] for [pmesh->Dimension()]. *)
Definition details (mesh_dim : Z) (impose_visc : bool)
  : outcome (Z * bool * bool) :=
  r ← match problem with
      | 0%Z => Done (if mesh_dim =? 2 then 1 else 0, false, false)%Z
      | 1%Z | 2%Z | 3%Z => Done (0, true, false)%Z
      | 4%Z => Done (0, false, false)%Z
      | 5%Z | 6%Z => Done (0, true, false)%Z
      | 7%Z => Done (2, true, true)%Z
      | 8%Z | 9%Z | 10%Z => Done (0, true, false)%Z
      | _ => Abort "Wrong problem specification!"
      end;
  let '(source, visc, vorticity) := r in
  Done (source, if impose_visc then true else visc, vorticity).

End Setup.

End Problem.

(** * Properties *)

(** ** Essential-dof elimination *)

Lemma dof_index_nonneg j : 0 <= dof_index j.
Proof. unfold dof_index. destruct (Z.leb_spec 0 j); lia. Qed.

Lemma pinned_true dofs i :
  pinned dofs i = true <-> exists j, j ∈ dofs /\ Z.to_nat (dof_index j) = i.
Proof.
  unfold pinned. rewrite existsb_exists. split.
  - intros (j & Hj & Hi). exists j. split.
    + by apply list_elem_of_In.
    + by apply Nat.eqb_eq.
  - intros (j & Hj & Hi). exists j. split.
    + by apply list_elem_of_In.
    + by apply Nat.eqb_eq.
Qed.

Lemma length_eliminate dofs c v : length (eliminate dofs c v) = length v.
Proof. unfold eliminate. by rewrite length_imap. Qed.

Lemma lookup_eliminate dofs c v i :
  eliminate dofs c v !! i =
  (fun a => if pinned dofs i then c else a) <$> v !! i.
Proof. unfold eliminate. by rewrite list_lookup_imap. Qed.

Lemma eliminate_insert j rest c v :
  dof_index j < Z.of_nat (length v) ->
  eliminate rest c (<[Z.to_nat (dof_index j) := c]> v)
  = eliminate (j :: rest) c v.
Proof.
  intros Hj. pose proof (dof_index_nonneg j) as Hnn.
  apply list_eq. intros i.
  rewrite !lookup_eliminate. cbn [pinned existsb].
  destruct (Nat.eqb_spec (Z.to_nat (dof_index j)) i) as [<-|Hne].
  - rewrite list_lookup_insert_eq by lia. cbn.
    destruct (lookup_lt_is_Some_2 v (Z.to_nat (dof_index j))) as [a ->]; [lia|].
    by destruct (pinned rest (Z.to_nat (dof_index j))).
  - by rewrite list_lookup_insert_ne.
Qed.

(** Within bounds [SetSubVector] returns, and what it returns is the vector
    with the listed entries overwritten. *)
Lemma SetSubVector_within dofs c v :
  dofs_within (length v) dofs ->
  SetSubVector dofs c v = Done (eliminate dofs c v).
Proof.
  revert v. induction dofs as [|j rest IH]; intros v Hw.
  - cbn. f_equal. apply list_eq. intros i. rewrite lookup_eliminate.
    cbn. by destruct (v !! i).
  - inversion_clear Hw as [|? ? Hj Hrest]. cbn [SetSubVector].
    destruct (Z.ltb_spec (dof_index j) (Z.of_nat (length v))); [|lia].
    rewrite IH.
    + by rewrite eliminate_insert.
    + by rewrite length_insert.
Qed.

Lemma eliminate_pinned dofs c v j :
  j ∈ dofs -> dof_index j < Z.of_nat (length v) ->
  eliminate dofs c v !! Z.to_nat (dof_index j) = Some c.
Proof.
  intros Hin Hlt. rewrite lookup_eliminate.
  destruct (lookup_lt_is_Some_2 v (Z.to_nat (dof_index j))) as [a ->].
  { pose proof (dof_index_nonneg j). lia. }
  cbn. replace (pinned dofs _) with true; [done|].
  symmetry. apply pinned_true. eauto.
Qed.

Lemma eliminate_agree dofs c v1 v2 :
  length v1 = length v2 ->
  (forall i, pinned dofs i = false -> v1 !! i = v2 !! i) ->
  eliminate dofs c v1 = eliminate dofs c v2.
Proof.
  intros Hlen Hag. apply list_eq. intros i. rewrite !lookup_eliminate.
  destruct (pinned dofs i) eqn:Hp.
  - destruct (v1 !! i) eqn:H1, (v2 !! i) eqn:H2; cbn; try done.
    + apply lookup_lt_Some in H1. apply lookup_ge_None in H2. lia.
    + apply lookup_ge_None in H1. apply lookup_lt_Some in H2. lia.
  - by rewrite Hag.
Qed.

(** What [Mult] returns once [Setup] has run and the pinned dofs are indices
    of the vectors involved. *)
Lemma Mult_Done op A st x y :
  MassPA.massOperator op = Some A ->
  MassPA.ess_tdofs_count op <> 0 ->
  dofs_within (length (st x)) (MassPA.ess_tdofs op) ->
  (forall v, length (A v) = length v) ->
  let dX := eliminate (MassPA.ess_tdofs op) 0%float (st x) in
  MassPA.Mult op st x y =
  Done (MassPA.mk (MassPA.ess_tdofs_count op) (MassPA.ess_tdofs op) dX
          (MassPA.massOperator op),
        <[y := eliminate (MassPA.ess_tdofs op) 0%float (A dX)]> st).
Proof.
  intros HA Hc Hw Hsq dX. unfold MassPA.Mult.
  assert (Hlen : forall l : Vector,
    Nat.eqb (length (if negb (Nat.eqb (length l) (length (st x)))
                     then resize (length (st x)) 0%float l else l))
            (length (st x)) = true).
  { intros l. destruct (Nat.eqb_spec (length l) (length (st x))) as [E|E]; cbn.
    - by apply Nat.eqb_eq.
    - apply Nat.eqb_eq. by rewrite length_resize. }
  rewrite Hlen. cbn.
  destruct (Z.eqb_spec (MassPA.ess_tdofs_count op) 0) as [|_]; [done|]. cbn.
  rewrite SetSubVector_within by done. cbn. rewrite HA.
  rewrite SetSubVector_within.
  - done.
  - by rewrite Hsq, length_eliminate.
Qed.

(** A call that records a nonempty array leaves exactly that array and its
    size in the operator. *)
Lemma SetEssentialTrueDofs_records ind others dofs op op' :
  MassPA.SetEssentialTrueDofs ind others dofs op = Done op' ->
  dofs <> [] ->
  op' = MassPA.mk (Z.of_nat (length dofs)) dofs
          (MassPA.distX op) (MassPA.massOperator op).
Proof.
  unfold MassPA.SetEssentialTrueDofs. intros H Hne.
  destruct (if Z.of_nat (length (MassPA.ess_tdofs op)) =? 0 then _ else _)
    as [sized| |]; cbn in H; try discriminate.
  destruct (Z.eqb_spec (Z.of_nat (length dofs)) 0) as [E|_].
  - destruct dofs; [done | cbn in E; lia].
  - by injection H as <-.
Qed.

(** C2: once a nonempty set of pinned dofs is recorded, [Mult] returns, the
    pinned entries of its output are exactly [0], and two inputs that differ
    only in pinned entries give the same output. *)
Theorem Mult_symmetric_elimination ind others dofs op0 op A st1 st2 x y :
  MassPA.SetEssentialTrueDofs ind others dofs op0 = Done op ->
  dofs <> [] ->
  MassPA.massOperator op = Some A ->
  (forall v, length (A v) = length v) ->
  dofs_within (length (st1 x)) dofs ->
  length (st2 x) = length (st1 x) ->
  (forall i, pinned dofs i = false -> st1 x !! i = st2 x !! i) ->
  exists op1 st1' op2 st2',
    MassPA.Mult op st1 x y = Done (op1, st1') /\
    MassPA.Mult op st2 x y = Done (op2, st2') /\
    (forall j, j ∈ dofs -> st1' y !! Z.to_nat (dof_index j) = Some 0%float) /\
    st1' y = st2' y.
Proof.
  intros Hset Hne HA Hsq Hw Hlen Hag.
  pose proof (SetEssentialTrueDofs_records _ _ _ _ _ Hset Hne) as Hop.
  assert (Hd : MassPA.ess_tdofs op = dofs) by (by subst op).
  assert (Hc : MassPA.ess_tdofs_count op <> 0).
  { subst op. cbn. destruct dofs; [done | cbn; lia]. }
  rewrite <- Hd in Hw, Hag |- *.
  pose proof (Mult_Done op A st1 x y HA Hc Hw Hsq) as H1.
  assert (Hw2 : dofs_within (length (st2 x)) (MassPA.ess_tdofs op))
    by (by rewrite Hlen).
  pose proof (Mult_Done op A st2 x y HA Hc Hw2 Hsq) as H2.
  cbv zeta in H1, H2.
  eexists _, _, _, _. split; [exact H1|]. split; [exact H2|]. split.
  - intros j Hj. rewrite fn_lookup_insert.
    apply eliminate_pinned; [done|].
    rewrite Hsq, length_eliminate.
    unfold dofs_within in Hw. rewrite Forall_forall in Hw.
    apply Hw. by apply list_elem_of_In.
  - rewrite !fn_lookup_insert.
    by rewrite (eliminate_agree _ _ (st1 x) (st2 x)).
Qed.

Lemma Mult_symmetric_elimination_witness :
  MassPA.SetEssentialTrueDofs (fun _ => 0) 0 [0; 2]
    (MassPA.Setup twice MassPA.new) = Done op3 /\
  exists op1 st1' op2 st2',
    MassPA.Mult op3 (store3 [1; 2; 3]%float) 0%nat 1%nat = Done (op1, st1') /\
    MassPA.Mult op3 (store3 [7; 2; 9]%float) 0%nat 1%nat = Done (op2, st2') /\
    (forall j, j ∈ [0; 2] ->
       st1' 1%nat !! Z.to_nat (dof_index j) = Some 0%float) /\
    st1' 1%nat = st2' 1%nat.
Proof.
  split; [reflexivity|].
  apply (Mult_symmetric_elimination (fun _ => 0) 0 [0; 2]
           (MassPA.Setup twice MassPA.new) op3 twice).
  - reflexivity.
  - discriminate.
  - reflexivity.
  - intros v. apply length_map.
  - repeat constructor.
  - reflexivity.
  - intros [|[|[|i]]] Hp; try reflexivity; vm_compute in Hp; discriminate Hp.
Defined.

(** C9: [Mult] writes the output vector (and the scratch member [distX]) and
    nothing else: the input vector [x], a different object from [y], holds
    after the call what it held before, and so does every other vector. *)
Theorem Mult_leaves_input op st x y op' st' :
  MassPA.Mult op st x y = Done (op', st') ->
  x <> y ->
  st' x = st x /\
  (forall z, z <> y -> st' z = st z) /\
  MassPA.ess_tdofs_count op' = MassPA.ess_tdofs_count op /\
  MassPA.ess_tdofs op' = MassPA.ess_tdofs op /\
  MassPA.massOperator op' = MassPA.massOperator op.
Proof.
  unfold MassPA.Mult. intros H Hxy.
  destruct (assert _ _) as [[]| |]; cbn in H; try discriminate.
  destruct (if negb _ then _ else _) as [dX| |]; cbn in H; try discriminate.
  destruct (MassPA.massOperator op) as [A|] eqn:HA; try discriminate.
  destruct (if negb _ then _ else _) as [y2| |]; cbn in H; try discriminate.
  injection H as <- <-. cbn. repeat split; try done.
  - by apply fn_lookup_insert_ne.
  - intros z Hz. by apply fn_lookup_insert_ne.
Qed.

Lemma Mult_leaves_input_witness :
  exists op' st',
    MassPA.Mult op3 (store3 [1; 2; 3]%float) 0%nat 1%nat = Done (op', st') /\
    st' 0%nat = [1; 2; 3]%float.
Proof.
  eexists _, _. split; [reflexivity|].
  refine (proj1 (Mult_leaves_input op3 (store3 [1; 2; 3]%float) 0%nat 1%nat
                   _ _ eq_refl _)).
  discriminate.
Defined.

(** When the output is the input object itself, the write to [y] is a write
    to [x]. *)
Lemma Mult_aliased_output :
  exists op' st',
    MassPA.Mult op3 (store3 [1; 2; 3]%float) 0%nat 0%nat = Done (op', st') /\
    st' 0%nat = [0; 4; 0]%float.
Proof. eexists _, _. split; reflexivity. Qed.

(** ** [Mult] before [Setup] *)

(** C5, as the code has it: before [Setup] the member [massOperator] is
    still [NULL] and nothing in [Mult] tests it.  The one assertion of
    [Mult], on the size of [distX], passes, and the call ends in undefined
    behaviour: the dereference of the null [massOperator] whenever the
    elimination on the scratch copy stays within bounds.  It never ends in a
    diagnosed abort. *)
Theorem Mult_before_Setup op st x y :
  MassPA.massOperator op = None ->
  (exists u, MassPA.Mult op st x y = Undefined u) /\
  (forall w, MassPA.Mult op st x y <> Abort w) /\
  (dofs_within (length (st x)) (MassPA.ess_tdofs op) ->
   MassPA.Mult op st x y = Undefined NullDereference).
Proof.
  intros HA.
  assert (Hlen : assert
    (Nat.eqb (length (if negb (Nat.eqb (length (MassPA.distX op)) (length (st x)))
                      then resize (length (st x)) 0%float (MassPA.distX op)
                      else MassPA.distX op))
             (length (st x))) "distX.Size()==x.Size()" = Done tt).
  { destruct (Nat.eqb_spec (length (MassPA.distX op)) (length (st x))) as [E|E];
      cbn.
    - by rewrite E, Nat.eqb_refl.
    - by rewrite length_resize, Nat.eqb_refl. }
  assert (Hsub : forall dofs c (v : Vector),
            (exists v', SetSubVector dofs c v = Done v') \/
            SetSubVector dofs c v = Undefined OutOfBounds).
  { intros dofs c. induction dofs as [|j rest IH]; intros v; cbn.
    - left. eauto.
    - destruct (_ <? _); [apply IH | by right]. }
  unfold MassPA.Mult. rewrite Hlen, HA. cbn.
  destruct (MassPA.ess_tdofs_count op =? 0) eqn:Hc; cbn; cycle 1.
  - destruct (Hsub (MassPA.ess_tdofs op) 0%float (st x)) as [[v' Hv] | Hv];
      rewrite Hv; cbn.
    + split; [eauto | split; [by intros w | done]].
    + split; [eauto | split; [by intros w |]].
      intros Hw. by rewrite SetSubVector_within in Hv by done.
  - split; [eauto | split; [by intros w | done]].
Qed.

Lemma Mult_before_Setup_witness :
  (exists u, MassPA.Mult MassPA.new (store3 [1; 2; 3]%float) 0%nat 1%nat
             = Undefined u) /\
  (forall w, MassPA.Mult MassPA.new (store3 [1; 2; 3]%float) 0%nat 1%nat
             <> Abort w) /\
  (dofs_within 3 [] ->
   MassPA.Mult MassPA.new (store3 [1; 2; 3]%float) 0%nat 1%nat
   = Undefined NullDereference).
Proof.
  exact (Mult_before_Setup MassPA.new (store3 [1; 2; 3]%float) 0%nat 1%nat
           eq_refl).
Defined.

(** C5 as stated fails on a freshly constructed operator: the call is a null
    dereference, not an assertion failure. *)
Lemma Mult_before_Setup_not_asserted :
  MassPA.Mult MassPA.new (store3 [1; 2; 3]%float) 0%nat 1%nat
  = Undefined NullDereference /\
  ~ (exists w, MassPA.Mult MassPA.new (store3 [1; 2; 3]%float) 0%nat 1%nat
               = Abort w).
Proof. split; [reflexivity | intros [w Hw]; discriminate Hw]. Qed.

(** ** Recording the essential dofs twice *)

(** C6, as the code has it: once a nonempty array of dofs is recorded, a
    second call with a nonzero count fails (the assertion
    [ess_tdofs_count<=ess_tdofs.Size()]) exactly when its count is larger
    than the recorded one; a smaller or equal nonzero count is accepted and
    its dofs replace the recorded ones. *)
Theorem SetEssentialTrueDofs_twice ind o1 o2 dofs1 dofs2 op op1 :
  MassPA.SetEssentialTrueDofs ind o1 dofs1 op = Done op1 ->
  dofs1 <> [] ->
  dofs2 <> [] ->
  MassPA.SetEssentialTrueDofs ind o2 dofs2 op1 =
  if (length dofs2 <=? length dofs1)%nat
  then Done (MassPA.mk (Z.of_nat (length dofs2)) dofs2
               (MassPA.distX op) (MassPA.massOperator op))
  else Abort "ess_tdofs_count<=ess_tdofs.Size()".
Proof.
  intros H1 Hne1 Hne2.
  pose proof (SetEssentialTrueDofs_records _ _ _ _ _ H1 Hne1) as Hop1.
  subst op1. unfold MassPA.SetEssentialTrueDofs. cbn.
  destruct (Z.eqb_spec (Z.of_nat (length dofs1)) 0) as [E|_].
  { destruct dofs1; [done | cbn in E; lia]. }
  destruct (Nat.leb_spec (length dofs2) (length dofs1)) as [Hle|Hgt].
  - destruct (Z.leb_spec (Z.of_nat (length dofs2)) (Z.of_nat (length dofs1)));
      [|lia]. cbn.
    destruct (Z.eqb_spec (Z.of_nat (length dofs2)) 0) as [E|_]; [|done].
    destruct dofs2; [done | cbn in E; lia].
  - destruct (Z.leb_spec (Z.of_nat (length dofs2)) (Z.of_nat (length dofs1)));
      [lia|]. done.
Qed.

Lemma SetEssentialTrueDofs_twice_witness :
  MassPA.SetEssentialTrueDofs (fun _ => 0) 0 [0; 1; 2; 3] MassPA.new
  = Done (MassPA.mk 4 [0; 1; 2; 3] [] None) /\
  MassPA.SetEssentialTrueDofs (fun _ => 0) 0 [0; 1; 2; 3; 4; 5]
    (MassPA.mk 4 [0; 1; 2; 3] [] None)
  = Abort "ess_tdofs_count<=ess_tdofs.Size()".
Proof.
  split; [reflexivity|].
  apply (SetEssentialTrueDofs_twice (fun _ => 0) 0 0 [0; 1; 2; 3]
           [0; 1; 2; 3; 4; 5] MassPA.new);
    [reflexivity | discriminate | discriminate].
Defined.

(** C6 as stated fails: after four dofs are recorded, a call with two dofs,
    a nonzero count different from the recorded one, is accepted. *)
Lemma SetEssentialTrueDofs_smaller_accepted :
  exists op1,
    MassPA.SetEssentialTrueDofs (fun _ => 0) 0 [0; 1; 2; 3] MassPA.new
    = Done op1 /\
    MassPA.ess_tdofs_count op1 = 4 /\
    Z.of_nat (length [5; 6]) <> 0 /\
    Z.of_nat (length [5; 6]) <> MassPA.ess_tdofs_count op1 /\
    MassPA.SetEssentialTrueDofs (fun _ => 0) 0 [5; 6] op1
    = Done (MassPA.mk 2 [5; 6] [] None).
Proof. eexists. repeat split; try reflexivity; discriminate. Qed.

(** ** The adaptive time step control *)

Section TimeLoopFacts.

Context {StateVec Hydro : Type}.
Variable ResetTimeStepEstimate : Hydro -> Hydro.
Variable GetTimeStepEstimate : Hydro -> StateVec -> Hydro * float.
Variable ResetQuadratureData : Hydro -> Hydro.
Variable ode_step : Hydro -> StateVec -> float -> float -> Hydro * StateVec.
Variable t_final : float.
Variable max_tsteps : Z.
Variable vis_steps : Z.
Variable norm : StateVec -> float.
Variable Visualize : Hydro -> StateVec -> Hydro.

Abbreviation vars := (TimeLoop.vars StateVec Hydro).
Abbreviation clamp := (TimeLoop.clamp StateVec Hydro t_final max_tsteps).
Abbreviation attempt :=
  (TimeLoop.attempt StateVec Hydro ResetTimeStepEstimate GetTimeStepEstimate
     ode_step t_final max_tsteps).
Abbreviation rejected :=
  (TimeLoop.rejected StateVec Hydro ResetTimeStepEstimate GetTimeStepEstimate
     ode_step t_final max_tsteps).
Abbreviation body :=
  (TimeLoop.body StateVec Hydro ResetTimeStepEstimate GetTimeStepEstimate
     ResetQuadratureData ode_step t_final max_tsteps).
Abbreviation iteration :=
  (TimeLoop.iteration StateVec Hydro ResetTimeStepEstimate GetTimeStepEstimate
     ResetQuadratureData ode_step t_final max_tsteps vis_steps norm
     Visualize).
Abbreviation loop :=
  (TimeLoop.loop StateVec Hydro ResetTimeStepEstimate GetTimeStepEstimate
     ResetQuadratureData ode_step t_final max_tsteps vis_steps norm
     Visualize).
Abbreviation after :=
  (TimeLoop.after StateVec Hydro ResetTimeStepEstimate GetTimeStepEstimate
     ResetQuadratureData ode_step t_final max_tsteps vis_steps norm
     Visualize).

Abbreviation S := (TimeLoop.S StateVec Hydro).
Abbreviation S_old := (TimeLoop.S_old StateVec Hydro).
Abbreviation t := (TimeLoop.t StateVec Hydro).
Abbreviation t_old := (TimeLoop.t_old StateVec Hydro).
Abbreviation dt := (TimeLoop.dt StateVec Hydro).
Abbreviation last_step := (TimeLoop.last_step StateVec Hydro).
Abbreviation steps := (TimeLoop.steps StateVec Hydro).
Abbreviation ti := (TimeLoop.ti StateVec Hydro).
Abbreviation hydro := (TimeLoop.hydro StateVec Hydro).
Abbreviation cout := (TimeLoop.cout StateVec Hydro).

(** The body split along its two outcomes of the first test. *)
Lemma body_rejected (v : vars) :
  rejected v = true ->
  body v =
  if (fst (clamp v) * 0.85 <? TimeLoop.epsilon)%float
  then Abort "The time step crashed!"
  else Done (TimeLoop.mkVars StateVec Hydro
               (S v) (S v) (t v) (t v) (fst (clamp v) * 0.85)%float
               (if steps v + 1 <? max_tsteps then false else snd (clamp v))
               (steps v + 1) (ti v - 1)
               (ResetQuadratureData (fst (fst (attempt v))))
               (cout v ++ [TimeLoop.RepeatingStep (ti v)])).
Proof.
  unfold TimeLoop.rejected, TimeLoop.body.
  destruct (clamp v) as [dt1 last1].
  destruct (attempt v) as [[h S1] dt_est]. cbn. by intros ->.
Qed.

Lemma body_accepted (v : vars) :
  rejected v = false ->
  body v =
  Done (TimeLoop.mkVars StateVec Hydro
          (snd (fst (attempt v))) (S v) (t v + fst (clamp v))%float (t v)
          (if (1.25 * fst (clamp v) <? snd (attempt v))%float
           then (fst (clamp v) * 1.02)%float else fst (clamp v))
          (snd (clamp v)) (steps v + 1) (ti v)
          (fst (fst (attempt v))) (cout v)).
Proof.
  unfold TimeLoop.rejected, TimeLoop.body.
  destruct (clamp v) as [dt1 last1].
  destruct (attempt v) as [[h S1] dt_est]. cbn. by intros ->.
Qed.

Abbreviation report := (TimeLoop.report StateVec Hydro vis_steps norm Visualize).

(** A rejected attempt skips the rest of the body, an accepted one goes
    through [report]. *)
Lemma iteration_rejected (v : vars) :
  rejected v = true ->
  iteration v = (v' ← body v; Done (TimeLoop.increment StateVec Hydro v')).
Proof. unfold TimeLoop.iteration. intros ->. by destruct (body v). Qed.

Lemma iteration_accepted (v : vars) :
  rejected v = false ->
  iteration v
  = (v' ← body v; v' ← report v'; Done (TimeLoop.increment StateVec Hydro v')).
Proof. unfold TimeLoop.iteration. by intros ->. Qed.

(** [report] writes at most one line, a "step" line, and leaves the
    variables of the step control as they are. *)
Lemma report_Done (v v' : vars) :
  report v = Done v' ->
  S v' = S v /\ S_old v' = S_old v /\ t v' = t v /\ t_old v' = t_old v /\
  dt v' = dt v /\ last_step v' = last_step v /\ steps v' = steps v /\
  ti v' = ti v /\
  (cout v' = cout v \/
   cout v' = cout v ++ [TimeLoop.Step (ti v) (t v) (dt v)
                         (PrimFloat.sqrt (norm (S v)))]).
Proof.
  unfold TimeLoop.report.
  destruct (last_step v) eqn:Hl; cbn.
  - intros [= <-]. cbn. repeat split; auto.
  - destruct (vis_steps =? 0); cbn; [discriminate|].
    destruct (Z.rem _ _ =? 0).
    + intros [= <-]. cbn. repeat split; auto.
    + intros [= <-]. repeat split; auto.
Qed.

(** C4: the decision after a step attempt goes by the first test that
    holds.  With [dt] the step tried and [dt_est] the new estimate: if
    [dt_est < dt] the step is rejected ([S] and [t] are put back) and [dt]
    is multiplied by 0.85 (the run aborting if that product is below
    epsilon); otherwise the step is accepted, and [dt] is multiplied by 1.02
    for the next iteration if [dt_est > 1.25 dt] and left as it is if
    not. *)
Theorem step_size_decision (v : vars) :
  let dt_try := fst (clamp v) in
  let dt_est := snd (attempt v) in
  if (dt_est <? dt_try)%float then
    body v = Abort "The time step crashed!" /\
    (dt_try * 0.85 <? TimeLoop.epsilon)%float = true
    \/
    exists v', body v = Done v' /\
      dt v' = (dt_try * 0.85)%float /\ S v' = S v /\ t v' = t v
  else
    exists v', body v = Done v' /\
      S v' = snd (fst (attempt v)) /\ t v' = (t v + dt_try)%float /\
      dt v' = if (1.25 * dt_try <? dt_est)%float
              then (dt_try * 1.02)%float else dt_try.
Proof.
  cbv zeta.
  destruct (snd (attempt v) <? fst (clamp v))%float eqn:Hrej.
  - rewrite (body_rejected v Hrej).
    destruct (fst (clamp v) * 0.85 <? TimeLoop.epsilon)%float.
    + by left.
    + right. eexists. by repeat split.
  - rewrite (body_accepted v Hrej). eexists. by repeat split.
Qed.

(** C7, as the code has it: [steps] is incremented right after
    [ode_solver->Step], before the decision, so every attempt, rejected or
    accepted, advances it by exactly one; the loop index [ti] keeps its
    value across a rejected attempt ([ti--] then [ti++]) and advances by
    one across an accepted one. *)
Theorem counters_per_attempt (v v' : vars) :
  iteration v = Done v' ->
  steps v' = steps v + 1 /\
  ti v' = if rejected v then ti v else ti v + 1.
Proof.
  destruct (rejected v) eqn:Hrej.
  - rewrite (iteration_rejected v Hrej), (body_rejected v Hrej).
    destruct (_ <? _)%float; cbn; [discriminate|].
    intros [= <-]. cbn. split; [done | lia].
  - rewrite (iteration_accepted v Hrej), (body_accepted v Hrej).
    cbn [mbind outcome_bind].
    destruct (report _) as [w| |] eqn:Hw; try discriminate.
    intros [= <-]. apply report_Done in Hw.
    destruct Hw as (_ & _ & _ & _ & _ & _ & Hs & Hti & _).
    cbn in *. by rewrite Hs, Hti.
Qed.

(** C10, as the code has it: with the step limit disabled
    ([max_tsteps < 0]), when the iteration was flagged as the last one
    because [dt] was clamped to the final time and the attempt is rejected,
    the shrunken [dt] is never tried.  If the shrunken step
    [(t_final - t) * 0.85] is below epsilon the run aborts with "The time
    step crashed!", before [S] and [t] are put back.  Otherwise the loop
    ends there: [S] and [t] hold their values from before the step and
    [last_step] is still set. *)
Theorem rejected_last_step_ends_loop (v : vars) :
  max_tsteps < 0 ->
  0 <= steps v ->
  last_step v = false ->
  (t_final <=? t v + dt v)%float = true ->
  rejected v = true ->
  if ((t_final - t v) * 0.85 <? TimeLoop.epsilon)%float then
    iteration v = Abort "The time step crashed!" /\
    forall fuel,
      loop (Datatypes.S fuel) v = Some (Abort "The time step crashed!")
  else
    exists v',
      iteration v = Done v' /\
      S v' = S v /\ t v' = t v /\ last_step v' = true /\
      dt v' = ((t_final - t v) * 0.85)%float /\
      steps v' = steps v + 1 /\
      forall fuel, loop (Datatypes.S fuel) v = Some (Done v').
Proof.
  intros Hmax Hsteps Hrun Hclamp Hrej.
  assert (Hc : clamp v = ((t_final - t v)%float, true)).
  { unfold TimeLoop.clamp. rewrite Hclamp. by destruct (_ =? _). }
  pose proof (body_rejected v Hrej) as Hb.
  rewrite Hc in Hb. cbn [fst snd] in Hb.
  pose proof (iteration_rejected v Hrej) as Hit. rewrite Hb in Hit.
  destruct ((t_final - t v) * 0.85 <? TimeLoop.epsilon)%float.
  - split; [exact Hit|].
    intros fuel. cbn [TimeLoop.loop]. by rewrite Hrun, Hit.
  - destruct (Z.ltb_spec (steps v + 1) max_tsteps); [lia|].
    eexists. split; [exact Hit|].
    cbn. repeat split.
    intros fuel. cbn [TimeLoop.loop]. rewrite Hrun, Hit. cbn. by destruct fuel.
Qed.

(** C1, as the code has it: a rejected attempt that does not trip the
    epsilon floor puts [S] and [t] back to the values saved before the
    attempt, invalidates the quadrature data and leaves [dt] multiplied by
    0.85 and [ti] as it was.  The loop goes on to the retry only if
    [last_step] is clear afterwards, which it is when the attempt was not
    flagged as the last one or [steps] is still below [max_tsteps]; the
    retry then starts from the saved state, and when it is accepted [S] is
    the solver's step from the saved [S] and [t] with the shrunken [dt]
    (clamped to the final time again where needed). *)
Theorem rejected_attempt_rolls_back (v : vars) :
  rejected v = true ->
  (fst (clamp v) * 0.85 <? TimeLoop.epsilon)%float = false ->
  exists v',
    iteration v = Done v' /\
    S v' = S v /\ t v' = t v /\
    hydro v' = ResetQuadratureData (fst (fst (attempt v))) /\
    dt v' = (fst (clamp v) * 0.85)%float /\
    ti v' = ti v /\
    last_step v' = (if steps v + 1 <? max_tsteps then false else snd (clamp v)) /\
    forall v'',
      last_step v' = false -> rejected v' = false ->
      iteration v' = Done v'' ->
      S v'' = snd (ode_step (ResetTimeStepEstimate (hydro v'))
                     (S v) (t v) (fst (clamp v'))) /\
      t v'' = (t v + fst (clamp v'))%float /\
      fst (clamp v') = if (t_final <=? t v + dt v')%float
                       then (t_final - t v)%float else dt v'.
Proof.
  intros Hrej Hfloor.
  pose proof (body_rejected v Hrej) as Hb. rewrite Hfloor in Hb.
  eexists. split.
  { rewrite (iteration_rejected v Hrej), Hb. reflexivity. }
  cbn. do 5 (split; [done || lia|]). split; [done|].
  intros v'' Hrun Hacc Hit.
  rewrite (iteration_accepted _ Hacc), (body_accepted _ Hacc) in Hit.
  cbn [mbind outcome_bind] in Hit.
  destruct (report _) as [w| |] eqn:Hw; try discriminate.
  injection Hit as <-. apply report_Done in Hw.
  destruct Hw as (HS & _ & Ht & _). cbn in HS, Ht |- *.
  rewrite HS, Ht. split; [|split; [done|]].
  - unfold TimeLoop.attempt. cbn.
    by destruct (ode_step _ _ _ _) as [h1 S1], (GetTimeStepEstimate h1 S1).
  - unfold TimeLoop.clamp. cbn. cbn in Hrun.
    by destruct (_ <=? _)%float.
Qed.

End TimeLoopFacts.

(** ** The step control on the scalar problem *)

(** The three branches of the decision, one run each: the estimate below the
    step (rejected, [dt] times 0.85), far above it (accepted, [dt] times
    1.02) and in between (accepted, [dt] kept). *)
Example decision_reject :
  Scalar.iteration (fun _ => 0.5%float) 10 (-1) (Scalar.start 0 1)
  = Done (Scalar.state 0 0 0 0 0.85 false 1 1 false
            [TimeLoop.RepeatingStep 1]).
Proof. reflexivity. Qed.

Example decision_grow :
  Scalar.iteration (fun _ => 2%float) 10 (-1) (Scalar.start 0 1)
  = Done (Scalar.state 1 0 1 0 1.02 false 1 2 true []).
Proof. reflexivity. Qed.

Example decision_keep :
  Scalar.iteration (fun _ => 1.25%float) 10 (-1) (Scalar.start 0 1)
  = Done (Scalar.state 1 0 1 0 1 false 1 2 true []).
Proof. reflexivity. Qed.

Lemma counters_per_attempt_witness :
  TimeLoop.steps _ _
    (Scalar.state 0 0 0 0 0.85 false 1 1 false
       [TimeLoop.RepeatingStep 1]) = 0 + 1 /\
  TimeLoop.ti _ _
    (Scalar.state 0 0 0 0 0.85 false 1 1 false
       [TimeLoop.RepeatingStep 1]) = 1.
Proof.
  exact (counters_per_attempt id (Scalar.get_estimate (fun _ => 0.5%float))
           Scalar.invalidate Scalar.euler 10%float (-1) Scalar.vis_steps
           Scalar.norm Scalar.show (Scalar.start 0 1) _ eq_refl).
Defined.

(** C7 as stated fails: across a rejected attempt the step counter goes from
    0 to 1. *)
Lemma rejected_attempt_counts_as_step :
  Scalar.rejected (fun _ => 0.5%float) 10 (-1) (Scalar.start 0 1) = true /\
  exists v',
    Scalar.iteration (fun _ => 0.5%float) 10 (-1) (Scalar.start 0 1) = Done v' /\
    TimeLoop.ti _ _ v' = TimeLoop.ti _ _ (Scalar.start 0 1) /\
    TimeLoop.steps _ _ v' <> TimeLoop.steps _ _ (Scalar.start 0 1).
Proof.
  split; [reflexivity|]. eexists. split; [reflexivity|].
  split; [reflexivity | discriminate].
Qed.

Lemma rejected_last_step_ends_loop_witness :
  exists v',
    Scalar.iteration (fun _ => 0.25%float) 0.5 (-1) (Scalar.start 0 1) = Done v' /\
    TimeLoop.S _ _ v' = 0%float /\ TimeLoop.t _ _ v' = 0%float /\
    TimeLoop.last_step _ _ v' = true /\
    TimeLoop.dt _ _ v' = ((0.5 - 0) * 0.85)%float /\
    TimeLoop.steps _ _ v' = 0 + 1 /\
    forall fuel,
      Scalar.loop (fun _ => 0.25%float) 0.5 (-1) (Datatypes.S fuel) (Scalar.start 0 1)
      = Some (Done v').
Proof.
  exact (rejected_last_step_ends_loop id
           (Scalar.get_estimate (fun _ => 0.25%float)) Scalar.invalidate
           Scalar.euler 0.5%float (-1) Scalar.vis_steps Scalar.norm Scalar.show
           (Scalar.start 0 1) eq_refl (Z.le_refl 0) eq_refl eq_refl eq_refl).
Defined.

(** C10 as stated fails when the clamped step is small: with
    [t_final = 2^-52] the first attempt is flagged as the last one with
    [dt = 2^-52], it is rejected, the shrunken step is below epsilon, and
    the run aborts instead of leaving the loop with [S] and [t] put back. *)
Lemma rejected_last_step_aborts :
  -1 < 0 /\
  TimeLoop.last_step _ _ (Scalar.start 0 1) = false /\
  Scalar.clamp 0x1p-52 (-1) (Scalar.start 0 1) = (0x1p-52%float, true) /\
  Scalar.rejected (fun _ => 0%float) 0x1p-52 (-1) (Scalar.start 0 1) = true /\
  Scalar.iteration (fun _ => 0%float) 0x1p-52 (-1) (Scalar.start 0 1)
  = Abort "The time step crashed!" /\
  (forall fuel,
     Scalar.loop (fun _ => 0%float) 0x1p-52 (-1) (Datatypes.S fuel)
       (Scalar.start 0 1)
     = Some (Abort "The time step crashed!")) /\
  forall fuel v',
    Scalar.loop (fun _ => 0%float) 0x1p-52 (-1) fuel (Scalar.start 0 1)
    <> Some (Done v').
Proof.
  repeat split; try reflexivity.
  intros [|fuel] v'; discriminate.
Qed.

Lemma rejected_attempt_rolls_back_witness :
  exists v',
    Scalar.iteration (fun _ => 0.5%float) 10 (-1) (Scalar.start 0 1) = Done v' /\
    TimeLoop.S _ _ v' = 0%float /\ TimeLoop.t _ _ v' = 0%float /\
    TimeLoop.hydro _ _ v' = false /\
    TimeLoop.dt _ _ v' = (1 * 0.85)%float.
Proof.
  destruct (rejected_attempt_rolls_back id
              (Scalar.get_estimate (fun _ => 0.5%float)) Scalar.invalidate
              Scalar.euler 10%float (-1) Scalar.vis_steps Scalar.norm
              Scalar.show (Scalar.start 0 1) eq_refl eq_refl)
    as (v' & H1 & H2 & H3 & H4 & H5 & _).
  exists v'. repeat split; assumption.
Defined.

(** C1 as stated fails: with [max_tsteps = 0] the first attempt is flagged as
    the last one; it is rejected, [S] is put back, and the loop ends after
    that single attempt.  The shrunken step 0.85 is never tried, and [S] is
    not the saved state advanced by it. *)
Lemma rejected_attempt_not_retried :
  Scalar.rejected (fun _ => 0.5%float) 10 0 (Scalar.start 0 1) = true /\
  (forall fuel,
     Scalar.loop (fun _ => 0.5%float) 10 0 (Datatypes.S fuel) (Scalar.start 0 1)
     = Some (Done (Scalar.state 0 0 0 0 0.85 true 1 1 false
                     [TimeLoop.RepeatingStep 1]))) /\
  snd (Scalar.euler false 0 0 0.85) = 0.85%float /\
  (0 =? 0.85)%float = false.
Proof.
  split; [reflexivity|]. split; [|split; reflexivity].
  intros fuel. cbn [Scalar.loop TimeLoop.loop]. by destruct fuel.
Qed.

(** ** The local force matrix *)

Section ForceFacts.

Local Open Scope nat_scope.
Import Force.

Lemma for_S {A} n (body : nat -> A -> A) a :
  for_ (Datatypes.S n) body a = body n (for_ n body a).
Proof. unfold for_. by rewrite seq_S, fold_left_app. Qed.

(** Loop invariants: what holds before the loop and is kept by each pass
    holds after it. *)
Lemma for_invariant {A} (P : nat -> A -> Prop) n (body : nat -> A -> A) a :
  P 0 a ->
  (forall k x, k < n -> P k x -> P (Datatypes.S k) (body k x)) ->
  P n (for_ n body a).
Proof.
  intros H0 Hstep. induction n as [|n IH]; [exact H0|].
  rewrite for_S. apply Hstep; [lia|]. apply IH.
  intros k x Hk. apply Hstep. lia.
Qed.

Lemma shaped_set h w m i j v : shaped h w m -> shaped h w (set m i j v).
Proof.
  intros (Hh & Hw & Hl). unfold shaped, set. cbn.
  by rewrite length_insert.
Qed.

Lemma index_bound i j h w : i < h -> j < w -> i + j * h < h * w.
Proof.
  intros Hi Hj.
  pose proof (Nat.mul_le_mono_r (Datatypes.S j) w h ltac:(lia)). lia.
Qed.

Lemma index_inj i j r c h :
  i < h -> r < h -> r + c * h = i + j * h -> r = i /\ c = j.
Proof.
  intros Hi Hr E.
  assert (Hc : (r + c * h) / h = c).
  { rewrite Nat.div_add by lia. rewrite Nat.div_small by lia. lia. }
  assert (Hj : (i + j * h) / h = j).
  { rewrite Nat.div_add by lia. rewrite Nat.div_small by lia. lia. }
  assert (c = j) by (rewrite <- Hc, <- Hj; by rewrite E).
  subst. lia.
Qed.

Lemma get_set h w m i j v r c :
  shaped h w m -> i < h -> j < w -> r < h ->
  get (set m i j v) r c = if decide (r = i /\ c = j) then v else get m r c.
Proof.
  intros (Hh & Hw & Hl) Hi Hj Hr. unfold get, set. cbn. rewrite Hh.
  destruct (decide (r = i /\ c = j)) as [[-> ->]|Hne].
  - rewrite list_lookup_insert_eq; [done|]. rewrite Hl.
    by apply index_bound.
  - rewrite list_lookup_insert_ne; [done|]. intros E. apply Hne.
    symmetry in E. by apply index_inj in E.
Qed.

Lemma get_at m i j : get m i j = at_ (data m) (i + j * height m).
Proof. reflexivity. Qed.

(** [AddMultVWt] adds [v(r) * w(c)] to every entry [(r, c)]. *)
Lemma AddMultVWt_row (v w : Vector) vi i m :
  shaped (length v) (length w) m -> i < length v ->
  let m' :=
    for_ (length w) (fun j VWt =>
      set VWt i j (get VWt i j + vi * at_ w j)%float) m in
  shaped (length v) (length w) m' /\
  (forall c, c < length w -> get m' i c = (get m i c + vi * at_ w c)%float) /\
  forall r c, r < length v -> r <> i -> get m' r c = get m r c.
Proof.
  intros Hm Hi. cbv zeta.
  set (P := fun k m' =>
    shaped (length v) (length w) m' /\
    (forall c, c < length w ->
       get m' i c = if decide (c < k) then (get m i c + vi * at_ w c)%float
                    else get m i c) /\
    forall r c, r < length v -> r <> i -> get m' r c = get m r c).
  enough (Hinv : P (length w)
    (for_ (length w) (fun j VWt =>
       set VWt i j (get VWt i j + vi * at_ w j)%float) m)).
  { destruct Hinv as (Hs & Hrow & Hrest). split; [done|]. split; [|done].
    intros c Hc. rewrite Hrow by done. by rewrite decide_True. }
  apply (for_invariant P); unfold P; clear P.
  - split; [done|]. split; [|done]. intros c Hc.
    rewrite decide_False; [done | lia].
  - intros j m' Hj (Hs & Hrow & Hrest). split; [by apply shaped_set|]. split.
    + intros c Hc. rewrite (get_set (length v) (length w)) by done.
      destruct (decide (c = j)) as [->|Hne].
      * rewrite decide_True by done. rewrite decide_True by lia.
        rewrite Hrow by done. rewrite decide_False; [done | lia].
      * rewrite decide_False by (intros [_ ?]; done). rewrite Hrow by done.
        destruct (decide (c < j)), (decide (c < Datatypes.S j)); (done || lia).
    + intros r c Hr Hne. rewrite (get_set (length v) (length w)) by done.
      rewrite decide_False by (intros [? _]; done). by apply Hrest.
Qed.

Lemma AddMultVWt_entries (v w : Vector) m :
  shaped (length v) (length w) m ->
  shaped (length v) (length w) (AddMultVWt v w m) /\
  forall r c, r < length v -> c < length w ->
    get (AddMultVWt v w m) r c = (get m r c + at_ v r * at_ w c)%float.
Proof.
  intros Hm. unfold AddMultVWt.
  set (P := fun k m' =>
    shaped (length v) (length w) m' /\
    forall r c, r < length v -> c < length w ->
      get m' r c = if decide (r < k) then (get m r c + at_ v r * at_ w c)%float
                   else get m r c).
  enough (Hinv : P (length v)
    (for_ (length v) (fun i VWt =>
       let vi := at_ v i in
       for_ (length w) (fun j VWt =>
         set VWt i j (get VWt i j + vi * at_ w j)%float) VWt) m)).
  { destruct Hinv as (Hs & Hall). split; [done|].
    intros r c Hr Hc. rewrite Hall by done. by rewrite decide_True. }
  apply (for_invariant P); unfold P; clear P.
  - split; [done|]. intros r c Hr Hc. rewrite decide_False; [done | lia].
  - intros i m' Hi (Hs & Hall). cbv zeta.
    destruct (AddMultVWt_row v w (at_ v i) i m' Hs Hi) as (Hs' & Hrow & Hrest).
    split; [done|]. intros r c Hr Hc.
    destruct (decide (r = i)) as [->|Hne].
    + rewrite Hrow by done. rewrite Hall by done.
      rewrite decide_False by lia. by rewrite decide_True by lia.
    + rewrite Hrest by done. rewrite Hall by done.
      destruct (decide (r < i)), (decide (r < Datatypes.S i)); (done || lia).
Qed.

Section Zone.

Variables (e nqp dim h1dofs_cnt l2dofs_cnt : nat).
Variable CalcDShape : nat -> nat -> nat -> float.
Variable CalcShape : nat -> nat -> float.
Variable stressJinvT : nat -> nat -> nat -> float.

Abbreviation form_loc_force :=
  (Force.form_loc_force e nqp dim h1dofs_cnt CalcDShape stressJinvT).
Abbreviation stress_grad :=
  (Force.stress_grad e nqp dim CalcDShape stressJinvT).
Abbreviation force_entry :=
  (Force.force_entry e nqp dim CalcDShape CalcShape stressJinvT).

(** The [gd] loop accumulates the contraction into entry [(i, vd)] and
    touches no other entry. *)
Lemma gd_loop q i vd m :
  shaped h1dofs_cnt dim m -> i < h1dofs_cnt -> vd < dim ->
  let m' :=
    for_ dim (fun gd loc_force =>
      set loc_force i vd
        (get loc_force i vd
         + stressJinvT vd (e * nqp + q) gd * CalcDShape q i gd)%float)
      (set m i vd 0%float) in
  shaped h1dofs_cnt dim m' /\
  get m' i vd = stress_grad q i vd /\
  forall r c, r < h1dofs_cnt -> (r, c) <> (i, vd) -> get m' r c = get m r c.
Proof.
  intros Hm Hi Hvd. cbv zeta. unfold Force.stress_grad.
  set (contrib := fun gd acc =>
    (acc + stressJinvT vd (e * nqp + q) gd * CalcDShape q i gd)%float).
  set (P := (fun k m' =>
            shaped h1dofs_cnt dim m' /\
            get m' i vd = for_ k contrib 0%float /\
            forall r c, r < h1dofs_cnt -> (r, c) <> (i, vd) ->
              get m' r c = get m r c)).
  enough (Hinv : P dim
         (for_ dim (fun gd loc_force =>
            set loc_force i vd
              (get loc_force i vd
               + stressJinvT vd (e * nqp + q) gd * CalcDShape q i gd)%float)
            (set m i vd 0%float))) by exact Hinv.
  apply (for_invariant P); unfold P; clear P.
  - split; [by apply shaped_set|]. split.
    + rewrite (get_set h1dofs_cnt dim) by done. by rewrite decide_True.
    + intros r c Hr Hne. rewrite (get_set h1dofs_cnt dim) by done.
      rewrite decide_False; [done|]. intros [-> ->]. by apply Hne.
  - intros gd m' Hgd (Hs & Hacc & Hkeep).
    split; [by apply shaped_set|]. split.
    + rewrite (get_set h1dofs_cnt dim) by done.
      rewrite decide_True by done. by rewrite for_S, Hacc.
    + intros r c Hr Hne. rewrite (get_set h1dofs_cnt dim) by done.
      rewrite decide_False; [by apply Hkeep|].
      intros [-> ->]. by apply Hne.
Qed.

(** The [vd] loop fills row [i] and touches no other row. *)
Lemma vd_loop q i m :
  shaped h1dofs_cnt dim m -> i < h1dofs_cnt ->
  let m' :=
    for_ dim (fun vd loc_force =>
      let loc_force := set loc_force i vd 0%float in
      for_ dim (fun gd loc_force =>
        let eq := e * nqp + q in
        set loc_force i vd
          (get loc_force i vd
           + stressJinvT vd eq gd * CalcDShape q i gd)%float)
        loc_force) m in
  shaped h1dofs_cnt dim m' /\
  (forall vd, vd < dim -> get m' i vd = stress_grad q i vd) /\
  forall r c, r < h1dofs_cnt -> r <> i -> get m' r c = get m r c.
Proof.
  intros Hm Hi. cbv zeta.
  set (P := (fun k m' =>
            shaped h1dofs_cnt dim m' /\
            (forall vd, vd < k -> get m' i vd = stress_grad q i vd) /\
            forall r c, r < h1dofs_cnt -> r <> i -> get m' r c = get m r c)).
  enough (Hinv : P
         dim
         (for_ dim (fun vd loc_force =>
            for_ dim (fun gd loc_force =>
              set loc_force i vd
                (get loc_force i vd
                 + stressJinvT vd (e * nqp + q) gd
                   * CalcDShape q i gd)%float)
              (set loc_force i vd 0%float)) m)) by exact Hinv.
  apply (for_invariant P); unfold P; clear P.
  - split; [done|]. split; [lia | done].
  - intros vd m' Hvd (Hs & Hdone & Hkeep).
    destruct (gd_loop q i vd m' Hs Hi Hvd) as (Hs' & Hnew & Hrest).
    split; [done|]. split.
    + intros c Hc. destruct (decide (c = vd)) as [->|Hne]; [done|].
      rewrite Hrest; [apply Hdone; lia | done | congruence].
    + intros r c Hr Hne. rewrite Hrest; [by apply Hkeep | done | congruence].
Qed.

(** After the three inner loops at point [q], every entry of [loc_force]
    is the contraction at that point. *)
Lemma form_loc_force_entries q lf :
  shaped h1dofs_cnt dim lf ->
  shaped h1dofs_cnt dim (form_loc_force q lf) /\
  forall i vd, i < h1dofs_cnt -> vd < dim ->
    get (form_loc_force q lf) i vd = stress_grad q i vd.
Proof.
  intros Hlf. unfold Force.form_loc_force.
  set (P := (fun k m =>
            shaped h1dofs_cnt dim m /\
            forall i vd, i < k -> vd < dim ->
              get m i vd = stress_grad q i vd)).
  enough (Hinv : P h1dofs_cnt
         (for_ h1dofs_cnt (fun i loc_force =>
            for_ dim (fun vd loc_force =>
              let loc_force := set loc_force i vd 0%float in
              for_ dim (fun gd loc_force =>
                let eq := e * nqp + q in
                set loc_force i vd
                  (get loc_force i vd
                   + stressJinvT vd eq gd * CalcDShape q i gd)%float)
                loc_force) loc_force) lf)) by exact Hinv.
  apply (for_invariant P); unfold P; clear P.
  - split; [done | lia].
  - intros i m Hi (Hs & Hrows).
    destruct (vd_loop q i m Hs Hi) as (Hs' & Hrow & Hrest).
    split; [done|]. intros r vd Hr Hvd.
    destruct (decide (r = i)) as [->|Hne]; [by apply Hrow|].
    rewrite Hrest; [apply Hrows; lia | lia | done].
Qed.

Abbreviation AssembleElementMatrix2 :=
  (Force.AssembleElementMatrix2 e nqp dim h1dofs_cnt l2dofs_cnt
     CalcDShape CalcShape stressJinvT).

(** C8: the matrix [AssembleElementMatrix2] leaves in [elmat] has
    [l2dofs_cnt] rows and [h1dofs_cnt * dim] columns, and its entry in
    row [r] and column [i + vd * h1dofs_cnt] is the sum over the
    quadrature points of the zone, accumulated from [0], of the
    thermodynamic basis value [r] times the contraction of the stress
    with the gradient of the kinematic basis function [i], component
    [vd], at the point. *)
Theorem AssembleElementMatrix2_entries elmat :
  shaped l2dofs_cnt (h1dofs_cnt * dim) (AssembleElementMatrix2 elmat) /\
  forall r i vd, r < l2dofs_cnt -> i < h1dofs_cnt -> vd < dim ->
    get (AssembleElementMatrix2 elmat) r (i + vd * h1dofs_cnt)
    = force_entry r i vd.
Proof.
  unfold Force.AssembleElementMatrix2, Force.force_entry.
  set (elmat0 := assign 0%float (SetSize l2dofs_cnt (h1dofs_cnt * dim) elmat)).
  set (lf0 := {| height := h1dofs_cnt; width := dim;
                 data := replicate (h1dofs_cnt * dim) 0%float |}).
  set (P := fun k (st : DenseMatrix * DenseMatrix) =>
    shaped l2dofs_cnt (h1dofs_cnt * dim) (fst st) /\
    shaped h1dofs_cnt dim (snd st) /\
    forall r i vd, r < l2dofs_cnt -> i < h1dofs_cnt -> vd < dim ->
      get (fst st) r (i + vd * h1dofs_cnt)
      = for_ k (fun q acc =>
          (acc + CalcShape q r * stress_grad q i vd)%float) 0%float).
  enough (Hinv : P nqp
    (for_ nqp (fun q '(elmat, loc_force) =>
       let loc_force := form_loc_force q loc_force in
       let shape := map (CalcShape q) (seq 0 l2dofs_cnt) in
       (AddMultVWt shape (data loc_force) elmat, loc_force))
       (elmat0, lf0))).
  { destruct Hinv as (Hs & _ & Hall). split; [exact Hs | exact Hall]. }
  apply (for_invariant P); unfold P; clear P.
  - cbn [fst snd]. split; [|split].
    + unfold shaped, elmat0, assign, SetSize. cbn.
      by rewrite length_replicate, length_resize.
    + unfold shaped, lf0. cbn. by rewrite length_replicate.
    + intros r i vd Hr Hi Hvd. unfold elmat0, get, assign, SetSize. cbn.
      rewrite length_resize, lookup_replicate_2; [done|].
      rewrite (Nat.mul_comm l2dofs_cnt).
      rewrite (Nat.add_comm r), (Nat.mul_comm _ l2dofs_cnt).
      pose proof (index_bound i vd h1dofs_cnt dim Hi Hvd).
      pose proof (index_bound r (i + vd * h1dofs_cnt) l2dofs_cnt
                    (h1dofs_cnt * dim) Hr). lia.
  - intros q [m lf] Hq (Hs & Hlf & Hall). cbn [fst snd] in *.
    destruct (form_loc_force_entries q lf Hlf) as (Hlf' & Hent).
    set (shape := map (CalcShape q) (seq 0 l2dofs_cnt)).
    assert (Hshape : length shape = l2dofs_cnt)
      by (unfold shape; by rewrite length_map, length_seq).
    assert (Hdata : length (data (form_loc_force q lf)) = h1dofs_cnt * dim)
      by apply Hlf'.
    destruct (AddMultVWt_entries shape (data (form_loc_force q lf)) m)
      as (Hs' & Hadd).
    { by rewrite Hshape, Hdata. }
    rewrite Hshape, Hdata in Hs', Hadd.
    split; [done|]. split; [done|].
    intros r i vd Hr Hi Hvd.
    rewrite Hadd by (done || by apply index_bound).
    rewrite for_S, Hall by done. f_equal. f_equal.
    + unfold at_, shape. rewrite list_lookup_fmap.
      by rewrite lookup_seq_lt.
    + rewrite <- Hent by done. rewrite get_at.
      destruct Hlf' as (-> & _). done.
Qed.

End Zone.

End ForceFacts.

(** On the unit-pressure zone: the assembled matrix, and one of its entries
    against the quadrature sum. *)
Example Zone_elmat :
  Zone.elmat
  = Force.mkDM 2 4
      [-1.75; -3.25; 0.6875; 0.0625; -0.125; 0.625; -2.1875; -6.0625]%float.
Proof. reflexivity. Qed.

Lemma AssembleElementMatrix2_entries_witness :
  Force.get Zone.elmat 1 (1 + 1 * 2)
  = Force.force_entry 0 2 2 Zone.dshape Zone.shape Zone.stress 1 1 1 /\
  Force.get Zone.elmat 1 (1 + 1 * 2) = (-6.0625)%float.
Proof.
  split; [|reflexivity].
  apply (proj2 (AssembleElementMatrix2_entries 0 2 2 2 2 Zone.dshape Zone.shape
                  Zone.stress (Force.mkDM 0 0 []))); lia.
Defined.

(** ** Binary64 multiplication by 0.85 *)

Section Binary64.

Lemma digits2_pos_size p : digits2_pos p = Pos.size p.
Proof. induction p; cbn; congruence. Qed.

Lemma digits_gt p : Zpos p < 2 ^ Zpos (digits2_pos p).
Proof.
  rewrite digits2_pos_size, <- Pos2Z.inj_pow.
  pose proof (Pos.size_gt p). lia.
Qed.

Lemma digits_le p : 2 ^ Zpos (digits2_pos p) <= 2 * Zpos p.
Proof.
  rewrite digits2_pos_size, <- Pos2Z.inj_pow.
  pose proof (Pos.size_le p). lia.
Qed.

Lemma digits_bound p k : 0 <= k -> Zpos p < 2 ^ k -> Zpos (digits2_pos p) <= k.
Proof.
  intros Hk Hp. pose proof (digits_le p) as Hle.
  destruct (Z.le_gt_cases (Zpos (digits2_pos p)) k) as [|Hgt]; [done|].
  assert (2 ^ (k + 1) <= 2 ^ Zpos (digits2_pos p))
    by (apply Z.pow_le_mono_r; lia).
  rewrite Z.pow_add_r in * by lia. lia.
Qed.

Lemma shr_1_m r : 0 <= shr_m r -> shr_m (shr_1 r) = shr_m r / 2.
Proof.
  destruct r as [m rr s]. cbn. intros Hm. rewrite <- Z.div2_div.
  destruct m as [|[p|p|]|p]; cbn; (done || lia).
Qed.

Lemma iter_shr_1_m p : forall r,
  0 <= shr_m r ->
  shr_m (SpecFloat.iter_pos shr_1 p r) = shr_m r / 2 ^ Zpos p.
Proof.
  assert (Hnn : forall a k, 0 <= a -> 0 <= a / 2 ^ Zpos k).
  { intros a k Ha. apply Z.div_pos; [done|]. apply Z.pow_pos_nonneg; lia. }
  induction p as [p IH|p IH|]; intros r Hr; cbn [SpecFloat.iter_pos].
  - rewrite IH, IH, shr_1_m; try done.
    + rewrite !Z.div_div by (try apply Z.pow_pos_nonneg; lia).
      f_equal. rewrite Pos2Z.inj_xI.
      rewrite Z.pow_add_r, Z.pow_mul_r, Z.pow_1_r by lia.
      replace (2 ^ 2) with 4 by done.
      replace (4 ^ Zpos p) with (2 ^ Zpos p * 2 ^ Zpos p); [lia|].
      rewrite <- Z.pow_add_r by lia. replace 4 with (2 ^ 2) by done.
      rewrite <- Z.pow_mul_r by lia. f_equal. lia.
    + rewrite shr_1_m by done. apply Z.div_pos; lia.
    + rewrite IH, shr_1_m; try done.
      * apply Hnn. apply Z.div_pos; lia.
      * rewrite shr_1_m by done. apply Z.div_pos; lia.
  - rewrite IH, IH; try done.
    + rewrite !Z.div_div by (try apply Z.pow_pos_nonneg; lia).
      f_equal. rewrite Pos2Z.inj_xO. rewrite <- Z.pow_add_r by lia.
      f_equal. lia.
    + rewrite IH by done. by apply Hnn.
  - rewrite shr_1_m by done. by rewrite Z.pow_1_r.
Qed.

Lemma shr_spec r e n :
  0 <= shr_m r ->
  shr_m (fst (shr r e n)) = shr_m r / 2 ^ Z.max 0 n /\
  snd (shr r e n) = e + Z.max 0 n.
Proof.
  intros Hr. destruct n as [|p|p]; cbn [shr fst snd].
  - rewrite Z.max_id. rewrite Z.pow_0_r, Z.div_1_r. lia.
  - rewrite Z.max_r by lia. by rewrite iter_shr_1_m.
  - rewrite Z.max_l by lia. rewrite Z.pow_0_r, Z.div_1_r. lia.
Qed.

Lemma round_nearest_even_cases m l :
  round_nearest_even m l = m \/ round_nearest_even m l = m + 1.
Proof.
  destruct l as [|[]]; cbn; auto. destruct (Z.even m); auto.
Qed.


(** The result of rounding the positive integer [M] scaled by [2^E]. *)
Lemma binary_round_aux_spec s M E :
  exists m1 n1 n2,
    n1 = Z.max 0 (fexp64 (Zpos (digits2_pos M) + E) - E) /\
    (m1 = Zpos M / 2 ^ n1 \/ m1 = Zpos M / 2 ^ n1 + 1) /\
    n2 = Z.max 0 (fexp64 (Zdigits2 m1 + (E + n1)) - (E + n1)) /\
    binary_round_aux prec emax s (Zpos M) E loc_Exact =
    match m1 / 2 ^ n2 with
    | Z0 => S754_zero s
    | Zpos m =>
        if E + n1 + n2 <=? 971 then S754_finite s m (E + n1 + n2)
        else S754_infinity s
    | Zneg _ => S754_nan
    end.
Proof.
  unfold binary_round_aux, shr_fexp.
  change (SpecFloat.fexp prec emax) with fexp64.
  change (Zdigits2 (Zpos M)) with (Zpos (digits2_pos M)).
  set (n1 := fexp64 (Zpos (digits2_pos M) + E) - E).
  destruct (shr_spec (shr_record_of_loc (Zpos M) loc_Exact) E n1) as [Hm1 He1];
    [cbn; lia|].
  destruct (shr _ E n1) as [mrs1 e1]. cbn [fst snd] in Hm1, He1.
  cbn [shr_record_of_loc shr_m] in Hm1.
  set (m1 := round_nearest_even (shr_m mrs1) (loc_of_shr_record mrs1)).
  set (n2 := fexp64 (Zdigits2 m1 + e1) - e1).
  assert (Hm1nn : 0 <= m1).
  { assert (0 <= shr_m mrs1).
    { rewrite Hm1. apply Z.div_pos; [lia|]. apply Z.pow_pos_nonneg; lia. }
    pose proof (round_nearest_even_cases (shr_m mrs1) (loc_of_shr_record mrs1)).
    unfold m1. lia. }
  destruct (shr_spec (shr_record_of_loc m1 loc_Exact) e1 n2) as [Hm2 He2];
    [cbn; lia|].
  destruct (shr _ e1 n2) as [mrs2 e2]. cbn [fst snd] in Hm2, He2.
  cbn [shr_record_of_loc shr_m] in Hm2.
  exists m1, (Z.max 0 n1), (Z.max 0 (fexp64 (Zdigits2 m1 + (E + Z.max 0 n1))
                                  - (E + Z.max 0 n1))).
  split; [done|]. split.
  { rewrite <- Hm1. apply round_nearest_even_cases. }
  split; [done|]. rewrite <- He1. fold n2. rewrite <- Hm2, <- He2.
  done.
Qed.


Lemma bounded_finite m e :
  bounded prec emax m e = true ->
  Zpos m < 2 ^ 53 /\ -1074 <= e <= 971 /\ (-1074 < e -> 2 ^ 52 <= Zpos m).
Proof.
  unfold bounded, canonical_mantissa.
  change (SpecFloat.fexp prec emax) with fexp64.
  change (emax - prec) with 971.
  intros [Hc He]%andb_prop. apply Z.eqb_eq in Hc. apply Z.leb_le in He.
  unfold fexp64 in Hc.
  pose proof (digits_gt m) as Hgt. pose proof (digits_le m) as Hle.
  assert (Hd : Zpos (digits2_pos m) <= 53) by lia.
  split; [|split; [lia|]].
  - assert (2 ^ Zpos (digits2_pos m) <= 2 ^ 53)
      by (apply Z.pow_le_mono_r; lia). lia.
  - intros Hn. assert (Hd53 : Zpos (digits2_pos m) = 53) by lia.
    rewrite Hd53 in Hle. change (2 ^ 53) with (2 * 2 ^ 52) in Hle. lia.
Qed.


(** Multiplying a finite double by 0.85 never overflows, keeps the sign, and
    lands at most one unit of the result's last place above the exact
    product. *)
Lemma SFmul_085 s m e :
  bounded prec emax m e = true ->
  let r := SFmul prec emax (S754_finite s m e) (S754_finite false m085 (-53)) in
  r = S754_zero s \/
  exists m' e',
    r = S754_finite s m' e' /\ e - 53 <= e' /\
    Zpos m' * 2 ^ (e' - (e - 53))
    <= Zpos m * Zpos m085 + 2 ^ (e' - (e - 53)).
Proof.
  intros Hb. destruct (bounded_finite m e Hb) as (Hm & He & _).
  cbn [SFmul]. rewrite xorb_false_r.
  destruct (binary_round_aux_spec s (m * m085) (e + -53))
    as (m1 & n1 & n2 & Hn1 & Hm1 & Hn2 & ->).
  rewrite Pos2Z.inj_mul in Hm1.
  set (M := Zpos m * Zpos m085) in *.
  assert (HM : 0 < M < Zpos m085 * 2 ^ 53).
  { unfold M, m085. change (2 ^ 53) with 9007199254740992 in *. lia. }
  assert (HdM : Zpos (digits2_pos (m * m085)) <= 106).
  { apply digits_bound; [lia|]. rewrite Pos2Z.inj_mul. fold M.
    change (2 ^ 106) with (2 ^ 53 * 2 ^ 53). unfold m085 in *. lia. }
  assert (Hn1b : 0 <= n1 <= 53) by (unfold fexp64 in Hn1; lia).
  assert (Hp1 : 0 < 2 ^ n1) by (apply Z.pow_pos_nonneg; lia).
  assert (Hsplit : 2 ^ 53 = 2 ^ n1 * 2 ^ (53 - n1)).
  { rewrite <- Z.pow_add_r by lia. f_equal. lia. }
  assert (Hq : 0 <= M / 2 ^ n1 < Zpos m085 * 2 ^ (53 - n1)).
  { split; [apply Z.div_pos; lia|].
    apply Z.div_lt_upper_bound; [done|]. rewrite Hsplit in HM. lia. }
  assert (Hqle : 2 ^ n1 * (M / 2 ^ n1) <= M) by (by apply Z.mul_div_le).
  assert (Hm1b : 0 <= m1 <= M / 2 ^ n1 + 1) by lia.
  assert (Hp53 : 0 < 2 ^ (53 - n1)) by (apply Z.pow_pos_nonneg; lia).
  assert (Hm1lt : m1 < 2 ^ (106 - n1)).
  { replace (106 - n1) with (53 + (53 - n1)) by lia.
    rewrite Z.pow_add_r by lia. unfold m085 in *.
    change (2 ^ 53) with 9007199254740992 in *. nia. }
  assert (Hd1 : Zdigits2 m1 <= 106 - n1).
  { destruct m1 as [|p1|p1]; cbn; [lia| |lia].
    apply digits_bound; [lia | done]. }
  assert (Hn2b : 0 <= n2 /\ e + -53 + n1 + n2 <= e)
    by (unfold fexp64 in Hn2; lia).
  assert (Hp2 : 0 < 2 ^ n2) by (apply Z.pow_pos_nonneg; lia).
  assert (Hm2le : 2 ^ n2 * (m1 / 2 ^ n2) <= m1) by (by apply Z.mul_div_le).
  assert (Hm2nn : 0 <= m1 / 2 ^ n2) by (apply Z.div_pos; lia).
  destruct (m1 / 2 ^ n2) as [|m2|m2] eqn:Em2; [by left | | lia].
  right. exists m2, (e + -53 + n1 + n2).
  destruct (Z.leb_spec (e + -53 + n1 + n2) 971); [|lia].
  split; [done|]. split; [lia|].
  replace (e + -53 + n1 + n2 - (e - 53)) with (n1 + n2) by lia.
  rewrite Z.pow_add_r by lia. nia.
Qed.


Lemma SFcompare_refl_finite s m e :
  SFcompare (S754_finite s m e) (S754_finite s m e) = Some Eq.
Proof.
  cbn. rewrite Z.compare_refl, Pos.compare_cont_refl. by destruct s.
Qed.

Lemma is_finite_spec x :
  is_finite x =
  match Prim2SF x with
  | S754_zero _ | S754_finite _ _ _ => true
  | _ => false
  end.
Proof.
  unfold is_finite, is_nan, is_infinity.
  rewrite !FloatAxioms.eqb_spec, abs_spec.
  change (Prim2SF infinity) with (S754_infinity false).
  destruct (Prim2SF x) as [s|s| |s m e]; try (by destruct s); [done|].
  unfold SFeqb at 1. rewrite SFcompare_refl_finite. done.
Qed.


(** One shrink of a finite step that stays at or above epsilon gives a
    finite, strictly smaller step. *)
Lemma shrink_step x :
  is_finite x = true ->
  (x * 0.85 <? 0x1p-52)%float = false ->
  is_finite (x * 0.85) = true /\
  (magnitude (x * 0.85) < magnitude x)%nat.
Proof.
  rewrite !is_finite_spec. unfold magnitude.
  rewrite ltb_spec, mul_spec.
  pose proof (Prim2SF_valid x) as Hvx.
  pose proof (Prim2SF_valid (x * 0.85)) as Hvy. rewrite mul_spec in Hvy.
  change (Prim2SF 0.85) with (S754_finite false m085 (-53)) in *.
  change (Prim2SF 0x1p-52) with (S754_finite false 4503599627370496 (-104)).
  unfold SF64mul in *.
  destruct (Prim2SF x) as [s|s| |s m e];
    [by destruct s | done | done |].
  intros _. cbn [SpecFloat.valid_binary] in Hvx.
  destruct (SFmul_085 s m e Hvx) as [Hz | (m' & e' & Hr & He' & Hle)];
    cbv zeta in *.
  { rewrite Hz. by destruct s. }
  rewrite Hr in *. cbn [SpecFloat.valid_binary] in Hvy.
  destruct s; [done|].
  unfold SFltb. cbn [SFcompare].
  destruct (Z.compare_spec e' (-104)) as [He|He|He]; [| done |]; intros Hlt.
  all: split; [done|].
  all: destruct (bounded_finite m e Hvx) as (Hm & Hex & _).
  all: destruct (bounded_finite m' e' Hvy) as (_ & _ & Hnorm).
  all: specialize (Hnorm ltac:(lia)).
  all: apply Z2Nat.inj_lt;
    [apply Z.mul_nonneg_nonneg; [lia | apply Z.pow_nonneg; lia]
    |apply Z.mul_nonneg_nonneg; [lia | apply Z.pow_nonneg; lia] |].
  all: replace (e' + 1127) with ((e' - (e - 53)) + (e + 1074)) by lia.
  all: replace (e + 1127) with (53 + (e + 1074)) by lia.
  all: rewrite (Z.pow_add_r 2 (e' - (e - 53)) (e + 1074)),
         (Z.pow_add_r 2 53 (e + 1074)) by lia.
  all: assert (HT : 0 < 2 ^ (e + 1074)) by (apply Z.pow_pos_nonneg; lia).
  all: assert (HP : 0 < 2 ^ (e' - (e - 53))) by (apply Z.pow_pos_nonneg; lia).
  all: rewrite !Z.mul_assoc; apply Zmult_lt_compat_r; [done|].
  all: assert (2 ^ 52 * 2 ^ (e' - (e - 53)) <= Zpos m' * 2 ^ (e' - (e - 53)))
    by (apply Z.mul_le_mono_nonneg_r; lia).
  all: unfold m085 in *; change (2 ^ 52) with 4503599627370496 in *;
    change (2 ^ 53) with 9007199254740992 in *; lia.
Qed.

End Binary64.
(** ** Rejection after rejection *)

Section TimeLoopFloor.

Context {StateVec Hydro : Type}.
Variable ResetTimeStepEstimate : Hydro -> Hydro.
Variable GetTimeStepEstimate : Hydro -> StateVec -> Hydro * float.
Variable ResetQuadratureData : Hydro -> Hydro.
Variable ode_step : Hydro -> StateVec -> float -> float -> Hydro * StateVec.
Variable t_final : float.
Variable max_tsteps : Z.
Variable vis_steps : Z.
Variable norm : StateVec -> float.
Variable Visualize : Hydro -> StateVec -> Hydro.

Abbreviation vars := (TimeLoop.vars StateVec Hydro).
Abbreviation clamp := (TimeLoop.clamp StateVec Hydro t_final max_tsteps).
Abbreviation rejected :=
  (TimeLoop.rejected StateVec Hydro ResetTimeStepEstimate GetTimeStepEstimate
     ode_step t_final max_tsteps).
Abbreviation iteration :=
  (TimeLoop.iteration StateVec Hydro ResetTimeStepEstimate GetTimeStepEstimate
     ResetQuadratureData ode_step t_final max_tsteps vis_steps norm
     Visualize).
Abbreviation loop :=
  (TimeLoop.loop StateVec Hydro ResetTimeStepEstimate GetTimeStepEstimate
     ResetQuadratureData ode_step t_final max_tsteps vis_steps norm
     Visualize).
Abbreviation after :=
  (TimeLoop.after StateVec Hydro ResetTimeStepEstimate GetTimeStepEstimate
     ResetQuadratureData ode_step t_final max_tsteps vis_steps norm
     Visualize).
Abbreviation always_rejected :=
  (TimeLoop.always_rejected StateVec Hydro ResetTimeStepEstimate
     GetTimeStepEstimate ResetQuadratureData ode_step t_final max_tsteps
     vis_steps norm Visualize).
Abbreviation dt := (TimeLoop.dt StateVec Hydro).
Abbreviation last_step := (TimeLoop.last_step StateVec Hydro).

Abbreviation t := (TimeLoop.t StateVec Hydro).
Abbreviation steps := (TimeLoop.steps StateVec Hydro).

Lemma unflagged_clamp (v : vars) : snd (clamp v) = false -> fst (clamp v) = dt v.
Proof.
  unfold TimeLoop.clamp. destruct (_ <=? _)%float; cbn.
  - by destruct (_ =? _).
  - done.
Qed.

(** An iteration is flagged when the step reaches the final time or the
    step counter is at its limit. *)
Lemma flagged_clamp (v : vars) :
  (t_final <=? t v + dt v)%float = true \/ steps v = max_tsteps ->
  snd (clamp v) = true.
Proof.
  unfold TimeLoop.clamp. intros [-> | ->].
  - cbn. by destruct (_ =? _).
  - rewrite Z.eqb_refl. by destruct (_ <=? _)%float.
Qed.

(** C3, as the code has it: in a run in which every step attempt is
    rejected (and which does not start with an infinite [dt] that stays
    below the final time while the step limit is already passed), the
    retry loop ends after finitely many rejections, each of which leaves
    [dt] at 0.85 times the step tried.  It ends with the abort "The time
    step crashed!" when that product comes out below epsilon.  The only
    other way it ends is a rejected attempt that is flagged as the last
    step with [steps] no longer below [max_tsteps]: the loop then ends
    normally, with [dt] still at or above epsilon. *)
Theorem repeated_rejection_aborts (v : vars) :
  last_step v = false ->
  is_finite (dt v) = true \/ (t_final <=? t v + dt v)%float = true
    \/ steps v <= max_tsteps ->
  always_rejected v ->
  exists n vn,
    after n v = Some vn /\ last_step vn = false /\
    steps vn = steps v + Z.of_nat n /\
    (forall k vk, (k < n)%nat -> after k v = Some vk ->
       exists vk', after (Datatypes.S k) v = Some vk' /\
         dt vk' = (fst (clamp vk) * 0.85)%float) /\
    if (fst (clamp vn) * 0.85 <? TimeLoop.epsilon)%float
    then loop (Datatypes.S n) v = Some (Abort "The time step crashed!")
    else snd (clamp vn) = true /\ max_tsteps <= steps vn + 1 /\
         exists v', loop (Datatypes.S n) v = Some (Done v') /\
           dt v' = (fst (clamp vn) * 0.85)%float.
Proof.
  intros Hrun HK Hall.
  remember (Z.to_nat (max_tsteps + 1 - steps v)) as b eqn:Hb.
  remember (magnitude (dt v)) as size eqn:Hsize.
  revert size v Hb Hsize Hrun HK Hall.
  induction b as [b IHb] using lt_wf_ind.
  induction size as [size IHs] using lt_wf_ind.
  intros v Hb Hsize Hrun HK Hall.
  pose proof (Hall O v eq_refl Hrun) as Hrej.
  pose proof (body_rejected ResetTimeStepEstimate GetTimeStepEstimate
                ResetQuadratureData ode_step t_final max_tsteps v Hrej) as Hbody.
  pose proof (iteration_rejected ResetTimeStepEstimate GetTimeStepEstimate
                ResetQuadratureData ode_step t_final max_tsteps vis_steps norm
                Visualize v Hrej) as Hit.
  rewrite Hbody in Hit.
  destruct (fst (clamp v) * 0.85 <? TimeLoop.epsilon)%float eqn:Hfloor.
  - (* the floor is reached at once *)
    exists O, v. split; [done|]. split; [done|]. split; [lia|].
    split; [intros k vk Hk; lia|].
    rewrite Hfloor. cbn [TimeLoop.loop]. by rewrite Hrun, Hit.
  - cbn [mbind outcome_bind] in Hit.
    match type of Hit with _ = Done ?w => set (v1 := w) in Hit end.
    assert (Hdt1 : dt v1 = (fst (clamp v) * 0.85)%float) by done.
    assert (Hst1 : steps v1 = steps v + 1) by done.
    assert (Ht1 : t v1 = t v) by done.
    assert (Hl1 : last_step v1
                  = if steps v + 1 <? max_tsteps then false else snd (clamp v))
      by done.
    clearbody v1.
    destruct (last_step v1) eqn:Hrun1.
    + (* the rejection ends the loop *)
      exists O, v. split; [done|]. split; [done|]. split; [lia|].
      split; [intros k vk Hk; lia|].
      rewrite Hfloor.
      destruct (Z.ltb_spec (steps v + 1) max_tsteps); [done|].
      split; [done|]. split; [lia|].
      exists v1. split; [|done].
      cbn [TimeLoop.loop]. by rewrite Hrun, Hit, Hrun1.
    + (* one more round *)
      assert (Hall1 : always_rejected v1).
      { intros n v' Hn. apply (Hall (Datatypes.S n)).
        cbn [TimeLoop.after]. by rewrite Hrun, Hit. }
      assert (Hnext : exists n vn,
        after n v1 = Some vn /\ last_step vn = false /\
        steps vn = steps v1 + Z.of_nat n /\
        (forall k vk, (k < n)%nat -> after k v1 = Some vk ->
           exists vk', after (Datatypes.S k) v1 = Some vk' /\
             dt vk' = (fst (clamp vk) * 0.85)%float) /\
        if (fst (clamp vn) * 0.85 <? TimeLoop.epsilon)%float
        then loop (Datatypes.S n) v1 = Some (Abort "The time step crashed!")
        else snd (clamp vn) = true /\ max_tsteps <= steps vn + 1 /\
             exists v', loop (Datatypes.S n) v1 = Some (Done v') /\
               dt v' = (fst (clamp vn) * 0.85)%float).
      { destruct (Z.ltb_spec (steps v) max_tsteps) as [Hlt|Hge].
        - (* the step counter is still below its limit *)
          apply (IHb (Z.to_nat (max_tsteps + 1 - steps v1)) ltac:(lia)
                   _ v1 eq_refl eq_refl Hrun1); [|done].
          right. right. lia.
        - (* past the limit no attempt is flagged, and [dt] shrinks *)
          destruct (Z.ltb_spec (steps v + 1) max_tsteps); [lia|].
          assert (Hfin : is_finite (dt v) = true).
          { destruct HK as [Hfin | [Hc | Hle]]; [done | |].
            - rewrite flagged_clamp in Hl1 by (by left). discriminate.
            - rewrite flagged_clamp in Hl1 by (right; lia). discriminate. }
          assert (Hne : steps v <> max_tsteps).
          { intros E. rewrite flagged_clamp in Hl1 by (by right).
            discriminate. }
          rewrite (unflagged_clamp v (eq_sym Hl1)) in Hfloor, Hdt1.
          destruct (shrink_step (dt v) Hfin Hfloor) as [Hfin' Hlt'].
          rewrite <- Hdt1 in Hfin', Hlt'.
          apply (IHs (magnitude (dt v1)) ltac:(lia) v1); try done.
          + lia.
          + by left. }
      destruct Hnext as (n & vn & Hafter & Hrunn & Hstn & Hsteps & Hend).
      exists (Datatypes.S n), vn.
      split; [cbn [TimeLoop.after]; by rewrite Hrun, Hit|].
      split; [done|]. split; [lia|]. split.
      * intros [|k] vk Hk Hvk.
        -- injection Hvk as <-. exists v1. split; [|done].
           cbn [TimeLoop.after]. by rewrite Hrun, Hit.
        -- cbn [TimeLoop.after] in Hvk. rewrite Hrun, Hit in Hvk.
           destruct (Hsteps k vk ltac:(lia) Hvk) as (vk' & Hvk' & Hdk).
           exists vk'. split; [|done].
           revert Hvk'. cbn [TimeLoop.after]. by rewrite Hrun, Hit.
      * assert (Hloop : forall r,
                  loop (Datatypes.S n) v1 = r ->
                  loop (Datatypes.S (Datatypes.S n)) v = r).
        { intros r <-. cbn [TimeLoop.loop]. by rewrite Hrun, Hit. }
        destruct (fst (clamp vn) * 0.85 <? TimeLoop.epsilon)%float.
        -- by apply Hloop.
        -- destruct Hend as (Hf & Hm & v' & Hl & Hd).
           split; [done|]. split; [done|]. exists v'. split; [|done].
           by apply Hloop.
Qed.

End TimeLoopFloor.

Lemma repeated_rejection_aborts_witness :
  snd (Scalar.clamp 0x1p-51 1000 (Scalar.start 0 1)) = true /\
  exists n,
    Scalar.loop (fun _ => 0%float) 0x1p-51 1000 (Datatypes.S n)
      (Scalar.start 0 1)
    = Some (Abort "The time step crashed!").
Proof.
  split; [reflexivity|].
  destruct (repeated_rejection_aborts id
              (Scalar.get_estimate (fun _ => 0%float)) Scalar.invalidate
              Scalar.euler 0x1p-51%float 1000 Scalar.vis_steps Scalar.norm
              Scalar.show (Scalar.start 0 1) eq_refl (or_introl eq_refl))
    as (n & vn & Hafter & _ & _ & _ & Hend).
  - intros [|[|[|[|[|n]]]]] v' Hn Hrun;
      vm_compute in Hn; try discriminate Hn;
      injection Hn as <-; reflexivity.
  - exists n.
    destruct n as [|[|[|[|[|n]]]]];
      vm_compute in Hafter; try discriminate Hafter;
      injection Hafter as <-; vm_compute in Hend.
    1-4: destruct Hend as (_ & Hm & _); exfalso; by apply Hm.
    exact Hend.
Defined.

(** C3 as stated fails: with [max_tsteps = 2] every one of the three attempts
    is rejected, [dt] is 0.85^3 when the loop ends, far above epsilon, and
    the run ends without the abort. *)
Lemma repeated_rejection_without_abort :
  (forall n v',
     Scalar.after (fun _ => 0.5%float) 10 2 n (Scalar.start 0 1) = Some v' ->
     TimeLoop.last_step _ _ v' = false ->
     Scalar.rejected (fun _ => 0.5%float) 10 2 v' = true) /\
  (forall fuel,
     Scalar.loop (fun _ => 0.5%float) 10 2 (3 + fuel) (Scalar.start 0 1)
     = Some (Done (Scalar.state 0 0 0 0 (1 * 0.85 * 0.85 * 0.85) true 3 1 false
                     [TimeLoop.RepeatingStep 1; TimeLoop.RepeatingStep 1;
                      TimeLoop.RepeatingStep 1]))) /\
  (1 * 0.85 * 0.85 * 0.85 <? TimeLoop.epsilon)%float = false.
Proof.
  split; [|split; [|reflexivity]].
  - intros [|[|[|[|n]]]] v' Hn Hrun;
      vm_compute in Hn; try discriminate Hn;
      injection Hn as <-; try reflexivity; discriminate Hrun.
  - intros fuel. cbn [Nat.add]. cbn [Scalar.loop TimeLoop.loop]. by destruct fuel.
Qed.

(** Why the start of the run matters: with [dt] at [+infinity], a final
    time that no step reaches (here NaN) and no step limit, every attempt is
    rejected and leaves [dt] infinite, and the loop is still running after
    any number of iterations. *)
Lemma infinite_step_retries_forever fuel st i h out :
  0 <= st ->
  Scalar.loop (fun _ => 0%float) nan (-1) fuel
    (Scalar.state 0 0 0 0 infinity false st i h out) = None.
Proof.
  revert st i h out. induction fuel as [|fuel IH]; intros st i h out Hst.
  - reflexivity.
  - unfold Scalar.loop in *. cbn [TimeLoop.loop Scalar.state TimeLoop.last_step].
    assert (Hit : Scalar.iteration (fun _ => 0%float) nan (-1)
                    (Scalar.state 0 0 0 0 infinity false st i h out)
                  = Done (Scalar.state 0 0 0 0 infinity false (st + 1)
                            (i - 1 + 1) false
                            (out ++ [TimeLoop.RepeatingStep i]))).
    { unfold Scalar.iteration, TimeLoop.iteration, TimeLoop.rejected,
        TimeLoop.body, TimeLoop.attempt, TimeLoop.clamp. cbn.
      destruct (Z.eqb_spec st (-1)); [lia|]. cbn.
      destruct (Z.ltb_spec (st + 1) (-1)); [lia|]. reflexivity. }
    unfold Scalar.iteration in Hit. rewrite Hit.
    apply (IH (st + 1) (i - 1 + 1) false). lia.
Qed.

(** * Further properties of the mass operator *)

(** Outside its bounds [SetSubVector] is an out-of-bounds write. *)
Lemma SetSubVector_outside dofs c v :
  ~ dofs_within (length v) dofs ->
  SetSubVector dofs c v = Undefined OutOfBounds.
Proof.
  revert v. induction dofs as [|j rest IH]; intros v Hout.
  - destruct Hout. constructor.
  - cbn [SetSubVector].
    destruct (Z.ltb_spec (dof_index j) (Z.of_nat (length v))) as [Hj|Hj]; [|done].
    apply IH. rewrite length_insert. intros Hrest. apply Hout.
    by constructor.
Qed.

(** After [distX.SetSize(x.Size())] the assertion on the sizes holds. *)
Lemma distX_resized (d : Vector) n :
  Nat.eqb (length (if negb (Nat.eqb (length d) n)
                   then resize n 0%float d else d)) n = true.
Proof.
  destruct (Nat.eqb_spec (length d) n) as [E|E]; cbn.
  - by apply Nat.eqb_eq.
  - apply Nat.eqb_eq. by rewrite length_resize.
Qed.

Lemma eliminate_idempotent dofs c v :
  eliminate dofs c (eliminate dofs c v) = eliminate dofs c v.
Proof.
  apply list_eq. intros i. rewrite !lookup_eliminate.
  destruct (v !! i); cbn; [|done]. by destruct (pinned dofs i).
Qed.

Lemma eliminate_unpinned dofs c v i :
  pinned dofs i = false -> eliminate dofs c v !! i = v !! i.
Proof.
  intros Hp. rewrite lookup_eliminate, Hp. by destruct (v !! i).
Qed.

(** X1: the first call on an operator that holds no dof array aborts exactly
    when no rank contributes a dof to the collective sum.  Otherwise it
    returns: a nonempty array is recorded as it is, and on a rank without
    dofs of its own the count is 0 and the array only takes the size of the
    global count. *)
Theorem SetEssentialTrueDofs_first ind others dofs op :
  MassPA.ess_tdofs op = [] ->
  (Z.of_nat (length dofs) + others <= 0 ->
   MassPA.SetEssentialTrueDofs ind others dofs op
   = Abort "global_ess_tdofs_count>0") /\
  (0 < Z.of_nat (length dofs) + others ->
   exists op',
     MassPA.SetEssentialTrueDofs ind others dofs op = Done op' /\
     MassPA.ess_tdofs_count op' = Z.of_nat (length dofs) /\
     (dofs <> [] -> MassPA.ess_tdofs op' = dofs) /\
     (dofs = [] -> Z.of_nat (length (MassPA.ess_tdofs op')) = others) /\
     MassPA.distX op' = MassPA.distX op /\
     MassPA.massOperator op' = MassPA.massOperator op).
Proof.
  intros Hempty. unfold MassPA.SetEssentialTrueDofs. rewrite Hempty. cbn.
  split; intros Hg.
  - by destruct (Z.ltb_spec 0 (Z.of_nat (length dofs) + others)); [lia|].
  - destruct (Z.ltb_spec 0 (Z.of_nat (length dofs) + others)); [|lia]. cbn.
    destruct dofs as [|j dofs]; cbn.
    + eexists. split; [reflexivity|]. cbn. repeat split; try done.
      intros _. unfold MassPA.SetSize.
      rewrite length_app, length_take, length_fmap, length_seq. cbn in *. lia.
    + eexists. split; [reflexivity|]. cbn. repeat split; try done.
Qed.

Lemma SetEssentialTrueDofs_first_witness :
  MassPA.SetEssentialTrueDofs (fun _ => 7) 0 [] MassPA.new
  = Abort "global_ess_tdofs_count>0" /\
  exists op',
    MassPA.SetEssentialTrueDofs (fun _ => 7) 3 [] MassPA.new = Done op' /\
    MassPA.ess_tdofs_count op' = 0 /\
    Z.of_nat (length (MassPA.ess_tdofs op')) = 3.
Proof.
  split.
  - apply (SetEssentialTrueDofs_first (fun _ => 7) 0 [] MassPA.new eq_refl).
    cbn. lia.
  - destruct (proj2 (SetEssentialTrueDofs_first (fun _ => 7) 3 [] MassPA.new
                       eq_refl) ltac:(cbn; lia))
      as (op' & H1 & H2 & _ & H4 & _).
    exists op'. split; [exact H1|]. split; [exact H2 | exact (H4 eq_refl)].
Defined.

(** X2: a later call with an empty array on an operator that has dofs
    recorded returns, sets the count to 0 and keeps the recorded array.
    From then on nothing is eliminated: [EliminateRHS] leaves its argument as
    it is and [Mult] writes the plain action of the mass operator on [x]. *)
Theorem empty_call_turns_elimination_off ind others op A st x y :
  MassPA.ess_tdofs op <> [] ->
  MassPA.massOperator op = Some A ->
  exists op',
    MassPA.SetEssentialTrueDofs ind others [] op = Done op' /\
    MassPA.ess_tdofs_count op' = 0 /\
    MassPA.ess_tdofs op' = MassPA.ess_tdofs op /\
    MassPA.EliminateRHS op' st x = Done st /\
    MassPA.Mult op' st x y
    = Done (MassPA.mk 0 (MassPA.ess_tdofs op) (st x) (Some A),
            <[y := A (st x)]> st).
Proof.
  intros Hne HA. unfold MassPA.SetEssentialTrueDofs.
  cbn [length]. change (Z.of_nat 0) with 0.
  destruct (Z.eqb_spec (Z.of_nat (length (MassPA.ess_tdofs op))) 0) as [E|_].
  { destruct (MassPA.ess_tdofs op); [done | cbn in E; lia]. }
  destruct (Z.leb_spec 0 (Z.of_nat (length (MassPA.ess_tdofs op)))); [|lia].
  cbn. eexists. split; [reflexivity|]. cbn. do 3 (split; [done|]).
  unfold MassPA.Mult. cbn. by rewrite HA, distX_resized.
Qed.

Lemma empty_call_turns_elimination_off_witness :
  exists op',
    MassPA.SetEssentialTrueDofs (fun _ => 7) 0 [] op3 = Done op' /\
    MassPA.ess_tdofs op' = [0; 2] /\
    MassPA.Mult op' (store3 [1; 2; 3]%float) 0%nat 1%nat
    = Done (MassPA.mk 0 [0; 2] [1; 2; 3]%float (Some twice),
            <[1%nat := twice [1; 2; 3]%float]> (store3 [1; 2; 3]%float)).
Proof.
  destruct (empty_call_turns_elimination_off (fun _ => 7) 0 op3 twice
              (store3 [1; 2; 3]%float) 0%nat 1%nat)
    as (op' & H1 & _ & H3 & _ & H5); [discriminate | reflexivity |].
  exists op'. split; [exact H1|]. split; [exact H3 | exact H5].
Defined.

(** X3: with dofs recorded that are indices of [b], [EliminateRHS] returns;
    it writes [0] to the pinned entries of [b], keeps every other entry and
    the size of [b], touches no other vector, and a second application
    changes nothing more. *)
Theorem EliminateRHS_zeroes_pinned op st b :
  0 < MassPA.ess_tdofs_count op ->
  dofs_within (length (st b)) (MassPA.ess_tdofs op) ->
  exists st',
    MassPA.EliminateRHS op st b = Done st' /\
    length (st' b) = length (st b) /\
    (forall j, j ∈ MassPA.ess_tdofs op ->
       st' b !! Z.to_nat (dof_index j) = Some 0%float) /\
    (forall i, pinned (MassPA.ess_tdofs op) i = false ->
       st' b !! i = st b !! i) /\
    (forall z, z <> b -> st' z = st z) /\
    exists st'',
      MassPA.EliminateRHS op st' b = Done st'' /\ forall z, st'' z = st' z.
Proof.
  intros Hc Hw. unfold MassPA.EliminateRHS.
  destruct (Z.ltb_spec 0 (MassPA.ess_tdofs_count op)); [|lia].
  rewrite SetSubVector_within by done. cbn.
  eexists. split; [reflexivity|]. rewrite fn_lookup_insert.
  split; [apply length_eliminate|]. split; [|split; [|split]].
  - intros j Hj. apply eliminate_pinned; [done|].
    unfold dofs_within in Hw. rewrite Forall_forall in Hw.
    apply Hw. by apply list_elem_of_In.
  - intros i Hi. by apply eliminate_unpinned.
  - intros z Hz. by apply fn_lookup_insert_ne.
  - rewrite SetSubVector_within by (by rewrite length_eliminate). cbn.
    eexists. split; [reflexivity|]. intros z.
    destruct (decide (z = b)) as [->|Hz].
    + rewrite !fn_lookup_insert. apply eliminate_idempotent.
    + by rewrite fn_lookup_insert_ne.
Qed.

Lemma EliminateRHS_zeroes_pinned_witness :
  exists st',
    MassPA.EliminateRHS op3 (store3 [1; 2; 3]%float) 0%nat = Done st' /\
    st' 0%nat = [0; 2; 0]%float.
Proof.
  eexists. split; [reflexivity|].
  destruct (EliminateRHS_zeroes_pinned op3 (store3 [1; 2; 3]%float) 0%nat)
    as (st' & H1 & _); [cbn; lia | repeat constructor |].
  reflexivity.
Defined.

(** X4: elimination composes with [Mult] without effect.  Eliminating the
    input first gives the same output, because [Mult] eliminates its own
    copy; and eliminating the output afterwards changes nothing, because
    [Mult] has done it. *)
Theorem Mult_absorbs_EliminateRHS op A st x y :
  MassPA.massOperator op = Some A ->
  0 < MassPA.ess_tdofs_count op ->
  dofs_within (length (st x)) (MassPA.ess_tdofs op) ->
  (forall v, length (A v) = length v) ->
  exists op1 st1 st0 op2 st2 st3,
    MassPA.Mult op st x y = Done (op1, st1) /\
    MassPA.EliminateRHS op st x = Done st0 /\
    MassPA.Mult op st0 x y = Done (op2, st2) /\
    st2 y = st1 y /\ op2 = op1 /\
    MassPA.EliminateRHS op1 st1 y = Done st3 /\
    forall z, st3 z = st1 z.
Proof.
  intros HA Hc Hw Hsq.
  assert (Hc' : MassPA.ess_tdofs_count op <> 0) by lia.
  pose proof (Mult_Done op A st x y HA Hc' Hw Hsq) as H1. cbv zeta in H1.
  unfold MassPA.EliminateRHS at 1.
  destruct (Z.ltb_spec 0 (MassPA.ess_tdofs_count op)); [|lia].
  rewrite SetSubVector_within by done. cbn.
  set (st0 := <[x := eliminate (MassPA.ess_tdofs op) 0%float (st x)]> st).
  assert (Hx0 : st0 x = eliminate (MassPA.ess_tdofs op) 0%float (st x))
    by (unfold st0; by rewrite fn_lookup_insert).
  assert (Hw0 : dofs_within (length (st0 x)) (MassPA.ess_tdofs op))
    by (by rewrite Hx0, length_eliminate).
  pose proof (Mult_Done op A st0 x y HA Hc' Hw0 Hsq) as H2. cbv zeta in H2.
  rewrite Hx0, eliminate_idempotent in H2.
  eexists _, _, st0, _, _, _.
  split; [exact H1|]. split; [done|]. split; [exact H2|].
  split; [by rewrite !fn_lookup_insert|]. split; [done|].
  unfold MassPA.EliminateRHS. cbn.
  destruct (Z.ltb_spec 0 (MassPA.ess_tdofs_count op)); [|lia].
  rewrite fn_lookup_insert.
  rewrite SetSubVector_within
    by (by rewrite length_eliminate, Hsq, length_eliminate).
  cbn. split; [reflexivity|]. intros z.
  destruct (decide (z = y)) as [->|Hz].
  - rewrite !fn_lookup_insert. apply eliminate_idempotent.
  - by rewrite fn_lookup_insert_ne.
Qed.

Lemma Mult_absorbs_EliminateRHS_witness :
  exists op1 st1 st0 op2 st2,
    MassPA.Mult op3 (store3 [1; 2; 3]%float) 0%nat 1%nat = Done (op1, st1) /\
    MassPA.EliminateRHS op3 (store3 [1; 2; 3]%float) 0%nat = Done st0 /\
    MassPA.Mult op3 st0 0%nat 1%nat = Done (op2, st2) /\
    st2 1%nat = st1 1%nat.
Proof.
  destruct (Mult_absorbs_EliminateRHS op3 twice (store3 [1; 2; 3]%float)
              0%nat 1%nat)
    as (op1 & st1 & st0 & op2 & st2 & _ & H1 & H2 & H3 & H4 & _).
  - reflexivity.
  - cbn. lia.
  - repeat constructor.
  - intros v. apply length_map.
  - exists op1, st1, st0, op2, st2. by repeat split.
Defined.

(** X5: the scratch member [distX] carries nothing from one call to the
    next: whatever it holds when [Mult] is entered, the outcome of the call
    (the output vector, the operator afterwards, or the failure) is the
    same. *)
Theorem Mult_ignores_scratch c dofs d1 d2 m st x y :
  MassPA.Mult (MassPA.mk c dofs d1 m) st x y
  = MassPA.Mult (MassPA.mk c dofs d2 m) st x y.
Proof.
  unfold MassPA.Mult. cbn. by rewrite !distX_resized.
Qed.

(** X6: the recorded dofs are never checked against the size of [x]: when
    one of them is not an index of [x], [Mult] ends in the out-of-bounds
    write of the elimination on its scratch copy, whether or not [Setup] has
    run, and [EliminateRHS] on such a vector ends the same way. *)
Theorem Mult_dof_out_of_range op st x y :
  0 < MassPA.ess_tdofs_count op ->
  ~ dofs_within (length (st x)) (MassPA.ess_tdofs op) ->
  MassPA.Mult op st x y = Undefined OutOfBounds /\
  MassPA.EliminateRHS op st x = Undefined OutOfBounds.
Proof.
  intros Hc Hout. split.
  - unfold MassPA.Mult. rewrite distX_resized. cbn.
    destruct (Z.eqb_spec (MassPA.ess_tdofs_count op) 0) as [|_]; [lia|]. cbn.
    by rewrite SetSubVector_outside.
  - unfold MassPA.EliminateRHS.
    destruct (Z.ltb_spec 0 (MassPA.ess_tdofs_count op)); [|lia].
    rewrite SetSubVector_outside by done. reflexivity.
Qed.

Lemma Mult_dof_out_of_range_witness :
  MassPA.Mult op3 (store3 [1; 2]%float) 0%nat 1%nat = Undefined OutOfBounds /\
  MassPA.EliminateRHS op3 (store3 [1; 2]%float) 0%nat = Undefined OutOfBounds.
Proof.
  apply (Mult_dof_out_of_range op3 (store3 [1; 2]%float) 0%nat 1%nat).
  - cbn. lia.
  - intros Hw. inversion_clear Hw as [|? ? _ Hw2].
    inversion_clear Hw2 as [|? ? H2 _]. cbn in H2. lia.
Defined.

(** * Further properties of the assembly routines *)

Section AssemblyMore.

Local Open Scope nat_scope.
Import Force.

Section Zone.

Variables (e nqp dim h1dofs_cnt l2dofs_cnt : nat).
Variable CalcDShape : nat -> nat -> nat -> float.
Variable CalcShape : nat -> nat -> float.
Variable stressJinvT : nat -> nat -> nat -> float.

Abbreviation AssembleElementMatrix2 :=
  (Force.AssembleElementMatrix2 e nqp dim h1dofs_cnt l2dofs_cnt
     CalcDShape CalcShape stressJinvT).

(** X7: the matrix [AssembleElementMatrix2] returns does not depend on the
    matrix it is handed: whatever size and content [elmat] comes with, the
    result is the same, nothing of the old content shows through. *)
Theorem AssembleElementMatrix2_overwrites elmat1 elmat2 :
  AssembleElementMatrix2 elmat1 = AssembleElementMatrix2 elmat2.
Proof.
  assert (H : Force.assign 0%float
                (Force.SetSize l2dofs_cnt (h1dofs_cnt * dim) elmat1)
              = Force.assign 0%float
                (Force.SetSize l2dofs_cnt (h1dofs_cnt * dim) elmat2)).
  { unfold Force.assign, Force.SetSize. cbn.
    by rewrite !length_resize. }
  unfold Force.AssembleElementMatrix2. cbv zeta. by rewrite H.
Qed.

End Zone.

Section Density.

Variables (e nqp dof : nat).
Variable CalcShape : nat -> nat -> float.
Variable rho0DetJ0w : nat -> float.

Abbreviation AssembleRHSElementVect :=
  (Density.AssembleRHSElementVect e nqp dof CalcShape rho0DetJ0w).
Abbreviation density_entry :=
  (Density.density_entry e nqp CalcShape rho0DetJ0w).

(** X8: the vector [AssembleRHSElementVect] leaves in [elvect] has one entry
    per dof of the element, and entry [i] is the sum over the quadrature
    points of the zone, accumulated from [0], of the basis function value
    [i] at the point times [rho0DetJ0w] at the point; the entries [elvect]
    came with play no part in it. *)
Theorem AssembleRHSElementVect_entries elvect :
  length (AssembleRHSElementVect elvect) = dof /\
  forall i, i < dof ->
    AssembleRHSElementVect elvect !! i = Some (density_entry i).
Proof.
  unfold Density.AssembleRHSElementVect, Density.density_entry.
  set (P := fun k (v : Vector) =>
    length v = dof /\
    forall i, i < dof ->
      v !! i = Some (for_ k (fun q acc =>
        (acc + CalcShape q i * rho0DetJ0w (e * nqp + q))%float) 0%float)).
  enough (Hinv : P nqp
    (for_ nqp (fun q elvect =>
       let shape := map (CalcShape q) (seq 0 dof) in
       let shape := Density.scale (rho0DetJ0w (e * nqp + q)) shape in
       Density.add_to elvect shape)
       (replicate (length (resize dof 0%float elvect)) 0%float)))
    by exact Hinv.
  apply (for_invariant P); unfold P; clear P.
  - rewrite length_replicate, length_resize. split; [done|].
    intros i Hi. by apply lookup_replicate_2.
  - intros q v Hq [Hlen Hent]. cbv zeta. unfold Density.add_to, Density.scale.
    split; [by rewrite length_imap|].
    intros i Hi. rewrite list_lookup_imap, (Hent i Hi), for_S.
    cbn [fmap option_fmap option_map]. do 2 f_equal. unfold at_.
    rewrite !list_lookup_fmap, lookup_seq_lt by done. done.
Qed.

End Density.

End AssemblyMore.

Lemma AssembleRHSElementVect_entries_witness :
  Density.AssembleRHSElementVect 0 2 2 Zone.shape (fun k => Zone.shape k 1)
    [5; 6; 7]%float !! 1%nat
  = Some (Density.density_entry 0 2 Zone.shape (fun k => Zone.shape k 1) 1) /\
  Density.AssembleRHSElementVect 0 2 2 Zone.shape (fun k => Zone.shape k 1)
    [5; 6; 7]%float = [0.9375; 2.3125]%float.
Proof.
  split; [|reflexivity].
  apply (proj2 (AssembleRHSElementVect_entries 0 2 2 Zone.shape
                  (fun k => Zone.shape k 1) [5; 6; 7]%float)).
  lia.
Defined.

(** * Further properties of the time loop *)

Section TimeLoopMore.

Context {StateVec Hydro : Type}.
Variable ResetTimeStepEstimate : Hydro -> Hydro.
Variable GetTimeStepEstimate : Hydro -> StateVec -> Hydro * float.
Variable ResetQuadratureData : Hydro -> Hydro.
Variable ode_step : Hydro -> StateVec -> float -> float -> Hydro * StateVec.
Variable t_final : float.
Variable max_tsteps : Z.
Variable vis_steps : Z.
Variable norm : StateVec -> float.
Variable Visualize : Hydro -> StateVec -> Hydro.

Abbreviation vars := (TimeLoop.vars StateVec Hydro).
Abbreviation clamp := (TimeLoop.clamp StateVec Hydro t_final max_tsteps).
Abbreviation rejected :=
  (TimeLoop.rejected StateVec Hydro ResetTimeStepEstimate GetTimeStepEstimate
     ode_step t_final max_tsteps).
Abbreviation iteration :=
  (TimeLoop.iteration StateVec Hydro ResetTimeStepEstimate GetTimeStepEstimate
     ResetQuadratureData ode_step t_final max_tsteps vis_steps norm
     Visualize).
Abbreviation loop :=
  (TimeLoop.loop StateVec Hydro ResetTimeStepEstimate GetTimeStepEstimate
     ResetQuadratureData ode_step t_final max_tsteps vis_steps norm
     Visualize).
Abbreviation after :=
  (TimeLoop.after StateVec Hydro ResetTimeStepEstimate GetTimeStepEstimate
     ResetQuadratureData ode_step t_final max_tsteps vis_steps norm
     Visualize).
Abbreviation init :=
  (TimeLoop.init StateVec Hydro ResetTimeStepEstimate GetTimeStepEstimate).
Abbreviation steps := (TimeLoop.steps StateVec Hydro).
Abbreviation ti := (TimeLoop.ti StateVec Hydro).
Abbreviation cout := (TimeLoop.cout StateVec Hydro).
Abbreviation last_step := (TimeLoop.last_step StateVec Hydro).
Abbreviation t := (TimeLoop.t StateVec Hydro).
Abbreviation dt := (TimeLoop.dt StateVec Hydro).

(** What one iteration does to the counters, the output and the flag. *)
Lemma iteration_bookkeeping (v v' : vars) :
  iteration v = Done v' ->
  steps v' = steps v + 1 /\
  (cout v' = cout v ++ [TimeLoop.RepeatingStep (ti v)] /\ ti v' = ti v \/
   (cout v' = cout v \/
    exists t1 dt1 e, cout v' = cout v ++ [TimeLoop.Step (ti v) t1 dt1 e]) /\
   ti v' = ti v + 1) /\
  (steps v = max_tsteps -> last_step v' = true).
Proof.
  intros Hit.
  destruct (rejected v) eqn:Hrej.
  - rewrite (iteration_rejected ResetTimeStepEstimate GetTimeStepEstimate
               ResetQuadratureData ode_step t_final max_tsteps vis_steps norm
               Visualize v Hrej),
            (body_rejected ResetTimeStepEstimate GetTimeStepEstimate
               ResetQuadratureData ode_step t_final max_tsteps v Hrej) in Hit.
    destruct (_ <? _)%float; cbn in Hit; [discriminate|].
    injection Hit as <-. cbn. split; [done|]. split.
    + left. split; [done | lia].
    + intros Hmax. destruct (Z.ltb_spec (steps v + 1) max_tsteps); [lia|].
      unfold TimeLoop.clamp. rewrite Hmax, Z.eqb_refl.
      by destruct (_ <=? _)%float.
  - rewrite (iteration_accepted ResetTimeStepEstimate GetTimeStepEstimate
               ResetQuadratureData ode_step t_final max_tsteps vis_steps norm
               Visualize v Hrej),
            (body_accepted ResetTimeStepEstimate GetTimeStepEstimate
               ResetQuadratureData ode_step t_final max_tsteps v Hrej) in Hit.
    cbn [mbind outcome_bind] in Hit.
    destruct (TimeLoop.report _ _ _ _ _ _) as [w| |] eqn:Hw; try discriminate.
    injection Hit as <-.
    apply (report_Done vis_steps norm Visualize) in Hw.
    destruct Hw as (_ & _ & _ & _ & _ & Hl & Hs & Hti & Hc).
    cbn in Hl, Hs, Hti, Hc |- *. rewrite Hs, Hti, Hl.
    split; [done|]. split.
    + right. split; [|done].
      destruct Hc as [-> | ->]; [by left | right; eauto].
    + intros Hmax. unfold TimeLoop.clamp. rewrite Hmax, Z.eqb_refl.
      by destruct (_ <=? _)%float.
Qed.



(** Without a step limit the flag is raised only by the test against the
    final time, and the time the iteration leaves is then the old time, when
    the attempt was rejected, or the old time plus what was missing to
    [t_final]. *)
Lemma iteration_flag (v v' : vars) :
  max_tsteps < 0 -> 0 <= steps v -> last_step v = false ->
  iteration v = Done v' ->
  last_step v' = true ->
  (t_final <=? t v + dt v)%float = true /\
  t v' = if rejected v then t v else (t v + (t_final - t v))%float.
Proof.
  intros Hmax Hst Hrun Hit Hlast.
  assert (Hclamp : clamp v =
            if (t_final <=? t v + dt v)%float
            then ((t_final - t v)%float, true) else (dt v, false)).
  { unfold TimeLoop.clamp. rewrite Hrun.
    destruct (Z.eqb_spec (steps v) max_tsteps); [lia|].
    by destruct (_ <=? _)%float. }
  destruct (rejected v) eqn:Hrej.
  - rewrite (iteration_rejected ResetTimeStepEstimate GetTimeStepEstimate
               ResetQuadratureData ode_step t_final max_tsteps vis_steps norm
               Visualize v Hrej),
            (body_rejected ResetTimeStepEstimate GetTimeStepEstimate
               ResetQuadratureData ode_step t_final max_tsteps v Hrej) in Hit.
    destruct (_ <? _)%float; cbn in Hit; [discriminate|].
    injection Hit as <-. cbn in *.
    destruct (Z.ltb_spec (steps v + 1) max_tsteps); [lia|].
    rewrite Hclamp in Hlast.
    destruct (t_final <=? t v + dt v)%float; [done | discriminate].
  - rewrite (iteration_accepted ResetTimeStepEstimate GetTimeStepEstimate
               ResetQuadratureData ode_step t_final max_tsteps vis_steps norm
               Visualize v Hrej),
            (body_accepted ResetTimeStepEstimate GetTimeStepEstimate
               ResetQuadratureData ode_step t_final max_tsteps v Hrej) in Hit.
    cbn [mbind outcome_bind] in Hit.
    destruct (TimeLoop.report _ _ _ _ _ _) as [w| |] eqn:Hw; try discriminate.
    injection Hit as <-.
    apply (report_Done vis_steps norm Visualize) in Hw.
    destruct Hw as (_ & _ & Ht & _ & _ & Hl & _).
    cbn in Hl, Ht, Hlast |- *. rewrite Hl in Hlast. rewrite Ht.
    rewrite Hclamp in Hlast |- *.
    destruct (t_final <=? t v + dt v)%float; [done | discriminate].
Qed.

(** X11: without a step limit ([max_tsteps] negative) a run ends normally
    only through an iteration whose step reached the final time
    ([t + dt >= t_final]), so that the step tried was [t_final - t].  The
    time the loop ends with is [t + (t_final - t)] in floating point when
    that attempt was accepted, and [t] short of [t_final] when it was
    rejected. *)
Theorem unlimited_run_ends_by_final_time (fuel : nat) (v v' : vars) :
  max_tsteps < 0 -> 0 <= steps v -> last_step v = false ->
  loop fuel v = Some (Done v') ->
  exists n u,
    after n v = Some u /\ last_step u = false /\
    iteration u = Done v' /\
    (t_final <=? t u + dt u)%float = true /\
    fst (clamp u) = (t_final - t u)%float /\
    t v' = if rejected u then t u else (t u + (t_final - t u))%float.
Proof.
  intros Hmax. revert v. induction fuel as [|fuel IH]; intros v Hst Hrun Hl.
  - cbn in Hl. rewrite Hrun in Hl. discriminate.
  - cbn [TimeLoop.loop] in Hl. rewrite Hrun in Hl.
    destruct (iteration v) as [v1| |] eqn:Hit; try discriminate.
    destruct (iteration_bookkeeping v v1 Hit) as (Hs & _ & _).
    destruct (last_step v1) eqn:Hrun1.
    + assert (v' = v1) as ->.
      { destruct fuel; cbn in Hl; rewrite Hrun1 in Hl; congruence. }
      destruct (iteration_flag v v1 Hmax Hst Hrun Hit Hrun1) as [Hc Ht].
      exists 0%nat, v. repeat split; try done.
      unfold TimeLoop.clamp. by rewrite Hc.
    + destruct (IH v1 ltac:(lia) Hrun1 Hl) as (n & u & Ha & Hu).
      exists (Datatypes.S n), u. split; [|done].
      cbn [TimeLoop.after]. by rewrite Hrun, Hit.
Qed.

(** X12: the saved copies are written before they are read: the junk the
    uninitialised [t_old] holds when the loop is entered, and what [S_old]
    and [t_old] hold at the start of any iteration, have no influence on the
    iteration or on the run. *)
Theorem saved_state_not_read S1 So So' t1 to to' dt1 ls st i h out :
  iteration (TimeLoop.mkVars StateVec Hydro S1 So t1 to dt1 ls st i h out)
  = iteration (TimeLoop.mkVars StateVec Hydro S1 So' t1 to' dt1 ls st i h out)
  /\
  forall fuel hy S0,
    loop fuel (init hy S0 to) = loop fuel (init hy S0 to').
Proof.
  split; [reflexivity|].
  intros fuel hy S0. unfold TimeLoop.init.
  destruct (GetTimeStepEstimate _ S0) as [h' dt0].
  destruct fuel; reflexivity.
Qed.

End TimeLoopMore.



Lemma unlimited_run_ends_by_final_time_witness :
  exists n u,
    Scalar.after (fun _ => 2%float) 1 (-1) n (Scalar.start 0 0.5) = Some u /\
    TimeLoop.last_step _ _ u = false /\
    Scalar.iteration (fun _ => 2%float) 1 (-1) u
    = Done (Scalar.state 1 0.5 1 0.5 0.51 true 2 3 true
              [TimeLoop.Step 2 1 0.51 1]) /\
    (1 <=? TimeLoop.t _ _ u + TimeLoop.dt _ _ u)%float = true /\
    fst (Scalar.clamp 1 (-1) u) = (1 - TimeLoop.t _ _ u)%float /\
    1%float = if Scalar.rejected (fun _ => 2%float) 1 (-1) u
              then TimeLoop.t _ _ u
              else (TimeLoop.t _ _ u + (1 - TimeLoop.t _ _ u))%float.
Proof.
  apply (unlimited_run_ends_by_final_time id
           (Scalar.get_estimate (fun _ => 2%float)) Scalar.invalidate
           Scalar.euler 1%float (-1) Scalar.vis_steps Scalar.norm Scalar.show
           5 (Scalar.start 0 0.5));
    [lia | cbn; lia | reflexivity | reflexivity].
Defined.

(** * Comparisons of doubles *)

Section Comparisons.

Lemma SFcompare_antisym x y :
  SFcompare y x = option_map CompOpp (SFcompare x y).
Proof.
  destruct x as [sx|sx| |sx mx ex], y as [sy|sy| |sy my ey]; cbn;
    try reflexivity;
    repeat match goal with s : bool |- _ => destruct s end;
    try reflexivity.
  all: rewrite (Z.compare_antisym ey ex);
    destruct (ey ?= ex)%Z; cbn; try reflexivity;
    pose proof (Pos.compare_cont_antisym mx my Eq) as Hm; cbn in Hm;
    rewrite <- Hm; by destruct (Pos.compare_cont Eq mx my).
Qed.

Lemma is_nan_spec a :
  is_nan a = match Prim2SF a with S754_nan => true | _ => false end.
Proof.
  unfold is_nan. rewrite FloatAxioms.eqb_spec.
  destruct (Prim2SF a) as [s|s| |s m e]; try (by destruct s).
  - done.
  - unfold SFeqb. by rewrite SFcompare_refl_finite.
Qed.

(** For two doubles that are not NaN, [a < c] fails exactly when [a >= c]
    holds. *)
Lemma ltb_leb_complement a c :
  is_nan a = false -> is_nan c = false ->
  (a <? c)%float = negb (c <=? a)%float.
Proof.
  rewrite !is_nan_spec, ltb_spec, leb_spec.
  unfold SFltb, SFleb. rewrite (SFcompare_antisym (Prim2SF a) (Prim2SF c)).
  destruct (Prim2SF a) as [sa|sa| |sa ma ea],
           (Prim2SF c) as [sc|sc| |sc mc ec]; try done; intros _ _; cbn;
    repeat match goal with s : bool |- _ => destruct s end; cbn;
    try reflexivity.
  all: destruct (ea ?= ec)%Z; cbn; try reflexivity;
    by destruct (Pos.compare_cont Eq ma mc).
Qed.

(** Every comparison with a NaN fails. *)
Lemma is_nan_compare a c :
  is_nan a = true ->
  (a <? c)%float = false /\ (c <=? a)%float = false.
Proof.
  rewrite is_nan_spec, ltb_spec, leb_spec.
  destruct (Prim2SF a) as [sa|sa| |sa ma ea]; try done. intros _.
  split; [done|]. unfold SFleb. by destruct (Prim2SF c).
Qed.

End Comparisons.

(** * The problem setup functions *)

Section ProblemFacts.

Variable dim : Z.
Variables sin cos exp log : float -> float.
Variable pow : float -> float -> float.

Abbreviation rho0 := (fun problem => Problem.rho0 problem dim).
Abbreviation gamma_func := Problem.gamma_func.
Abbreviation e0 := (fun problem => Problem.e0 problem dim cos log).
Abbreviation v0 := (fun problem => Problem.v0 problem sin cos exp pow).

Lemma problem_ids p :
  0 <= p <= 10 ->
  p = 0 \/ p = 1 \/ p = 2 \/ p = 3 \/ p = 4 \/ p = 5 \/ p = 6 \/ p = 7 \/
  p = 8 \/ p = 9 \/ p = 10.
Proof. lia. Qed.

(** Case analysis on every comparison of a coordinate that is left in the
    goal. *)
Ltac split_comparisons :=
  repeat (cbn;
    match goal with
    | |- context [PrimFloat.ltb ?a ?b] => destruct (PrimFloat.ltb a b)
    | |- context [PrimFloat.leb ?a ?b] => destruct (PrimFloat.leb a b)
    | |- context [Z.eqb dim ?b] => destruct (Z.eqb dim b)
    end); cbn.

Ltac unfold_setup :=
  unfold Problem.rho0, Problem.gamma_func, Problem.over_rho_gamma,
    Problem.quadrants, Problem.and_, Problem.or_, Problem.lt, Problem.gt,
    Problem.ge, Problem.le, Problem.rd, Problem.bad_id.

(** X13: for every problem id from 0 to 10 the initial density [rho0] never
    aborts; at a point with three coordinates it returns, and whatever it
    returns, at any point, is one of its constants, above 0 and at most
    1000, also when coordinates are NaN. *)
Theorem rho0_positive problem x :
  0 <= problem <= 10 ->
  ((3 <= length x)%nat -> exists r, rho0 problem x = Done r) /\
  (forall r, rho0 problem x = Done r ->
     (0 <? r)%float = true /\ (r <=? 1000)%float = true) /\
  (forall w, rho0 problem x <> Abort w).
Proof.
  intros Hp.
  destruct (problem_ids problem Hp)
    as [->|[->|[->|[->|[->|[->|[->|[->|[->|[->| ->]]]]]]]]]].
  all: destruct x as [|a [|b [|c rest]]].
  all: split; [intros Hx; try (cbn in Hx; lia)|split].
  all: unfold_setup; split_comparisons.
  all: try (eexists; reflexivity); try (intros w; discriminate).
  all: intros r [= <-]; split; reflexivity.
Qed.

(** X14: for the problem ids 0 to 9 the adiabatic index [gamma_func] is at
    least 1.4 wherever it returns, so the divisor [gamma_func(x) - 1.0] of
    [e0] is positive; it returns at every point with two coordinates. *)
Theorem gamma_func_above_one problem x :
  0 <= problem <= 9 ->
  ((2 <= length x)%nat -> exists g, gamma_func problem x = Done g) /\
  (forall g, gamma_func problem x = Done g ->
     (1.4 <=? g)%float = true /\ (0 <? g - 1)%float = true) /\
  (forall w, gamma_func problem x <> Abort w).
Proof.
  intros Hp.
  assert (Hp' : 0 <= problem <= 10) by lia.
  destruct (problem_ids problem Hp')
    as [->|[->|[->|[->|[->|[->|[->|[->|[->|[->| ->]]]]]]]]]]; try lia.
  all: destruct x as [|a [|b rest]].
  all: split; [intros Hx; try (cbn in Hx; lia)|split].
  all: unfold_setup; split_comparisons.
  all: try (eexists; reflexivity); try (intros w; discriminate).
  all: intros g [= <-]; split; reflexivity.
Qed.

(** X15: for the problems 2, 3, 8 and 9 the initial specific internal energy
    [e0] returns at every point with three coordinates, and the energy is
    positive. *)
Theorem e0_positive problem x :
  problem = 2 \/ problem = 3 \/ problem = 8 \/ problem = 9 ->
  (3 <= length x)%nat ->
  exists r, e0 problem x = Done r /\ (0 <? r)%float = true.
Proof.
  intros Hp Hx.
  destruct x as [|a [|b [|c rest]]]; try (cbn in Hx; lia). clear Hx.
  destruct Hp as [->|[->|[->| ->]]].
  all: unfold Problem.e0; unfold_setup; split_comparisons.
  all: eexists; split; reflexivity.
Qed.

(** X16: in the problems 5 and 6, [e0] goes through the four quadrant tests
    on the first two coordinates.  When neither coordinate is NaN one of
    them holds and [e0] returns a positive energy; when one is NaN none
    holds and [e0] aborts, with the message "Error in problem 5!" in both
    problems. *)
Theorem e0_quadrants problem x0 x1 rest :
  problem = 5 \/ problem = 6 ->
  (is_nan x0 || is_nan x1 = true ->
   e0 problem (x0 :: x1 :: rest) = Abort "Error in problem 5!") /\
  (is_nan x0 || is_nan x1 = false ->
   exists r, e0 problem (x0 :: x1 :: rest) = Done r /\ (0 <? r)%float = true).
Proof.
  intros Hp. split; intros Hnan.
  - assert (Hcmp : ((x0 <? 0.5)%float = false /\ (0.5 <=? x0)%float = false) \/
                   ((x1 <? 0.5)%float = false /\ (0.5 <=? x1)%float = false)).
    { apply orb_true_iff in Hnan as [H|H]; [left | right];
        by apply is_nan_compare. }
    destruct Hp as [-> | ->].
    all: unfold Problem.e0; unfold_setup; cbn.
    all: destruct Hcmp as [[-> ->] | [-> ->]]; split_comparisons; reflexivity.
  - apply orb_false_iff in Hnan as [H0 H1].
    pose proof (ltb_leb_complement x0 0.5 H0 eq_refl) as E0.
    pose proof (ltb_leb_complement x1 0.5 H1 eq_refl) as E1.
    destruct Hp as [-> | ->].
    all: unfold Problem.e0; unfold_setup; cbn; rewrite E0, E1.
    all: split_comparisons; eexists; split; reflexivity.
Qed.

(** X17: a problem id outside 0..10 makes each of the setup functions abort
    at its first call, whatever the point: [rho0], [gamma_func], [e0] and
    [v0] with "Bad number given for problem id!" ([v0] before it writes to
    [v]), the switch in [main] with "Wrong problem specification!". *)
Theorem unknown_problem_id problem x v mesh_dim impose_visc :
  problem < 0 \/ 10 < problem ->
  rho0 problem x = Abort "Bad number given for problem id!" /\
  gamma_func problem x = Abort "Bad number given for problem id!" /\
  e0 problem x = Abort "Bad number given for problem id!" /\
  v0 problem x v = Abort "Bad number given for problem id!" /\
  Problem.details problem mesh_dim impose_visc
  = Abort "Wrong problem specification!".
Proof.
  intros Hp.
  unfold Problem.rho0, Problem.gamma_func, Problem.e0, Problem.v0,
    Problem.details.
  destruct problem as [|p|p]; [lia | | done].
  do 4 (destruct p as [p|p|]; try lia); done.
Qed.

Lemma wr_Done v i a v' :
  Problem.wr v i a = Done v' -> v' = <[i := a]> v /\ (i < length v)%nat.
Proof.
  unfold Problem.wr. destruct (Nat.ltb_spec i (length v)); [|done].
  by intros [= <-].
Qed.

Lemma set01_Done v a b v' :
  Problem.set01 v a b = Done v' ->
  v' = <[1%nat := b]> (<[0%nat := a]> v).
Proof.
  unfold Problem.set01. destruct (Problem.wr v 0 a) as [v1| |] eqn:H1;
    cbn; try done.
  intros H2. apply wr_Done in H1 as [-> _]. by apply wr_Done in H2 as [-> _].
Qed.

Lemma quadrants_Done {A} x (pp mp mm pm : outcome A) what r :
  Problem.quadrants x pp mp mm pm what = Done r ->
  pp = Done r \/ mp = Done r \/ mm = Done r \/ pm = Done r.
Proof.
  unfold_setup.
  destruct x as [|a [|b rest]]; cbn; try done.
  - split_comparisons; try done.
  - split_comparisons; try done; auto 6.
Qed.

(** X18: [v0] returns with [v] at the size it came with.  In the problems 1
    to 10 every entry of [v] past the first two is zero afterwards.  In
    problem 0 the entries past the third are what they were before the
    call: there [v] is not set to zero first. *)
Theorem v0_entries_past_the_first problem x v v' :
  v0 problem x v = Done v' ->
  length v' = length v /\
  forall i : nat,
    (i < length v)%nat ->
    if problem =? 0 then (3 <= i)%nat -> v' !! i = v !! i
    else (2 <= i)%nat -> v' !! i = Some 0%float.
Proof.
  assert (Hz : forall i : nat, (i < length v)%nat ->
            Problem.zero v !! i = Some 0%float).
  { intros i Hi. unfold Problem.zero. by apply lookup_replicate_2. }
  assert (Hzl : length (Problem.zero v) = length v).
  { unfold Problem.zero. by rewrite length_replicate. }
  assert (H01 : forall a b w, Problem.set01 (Problem.zero v) a b = Done w ->
            length w = length v /\
            forall i : nat, (i < length v)%nat -> (2 <= i)%nat ->
              w !! i = Some 0%float).
  { intros a b w Hw. apply set01_Done in Hw as ->.
    rewrite !length_insert. split; [done|]. intros i Hi H2.
    rewrite !list_lookup_insert_ne by lia. by apply Hz. }
  unfold Problem.v0.
  destruct problem as [|p|p]; [ | | done].
  - (* problem 0 *)
    cbn [Z.eqb].
    destruct (Problem.rd x 0) as [x0| |]; cbn; try done.
    destruct (Problem.rd x 1) as [x1| |]; cbn; try done.
    destruct (Problem.wr v 0 _) as [v1| |] eqn:E1; cbn; try done.
    apply wr_Done in E1 as [-> _].
    destruct (Problem.wr _ 1 _) as [v2| |] eqn:E2; cbn; try done.
    apply wr_Done in E2 as [-> _].
    destruct (Nat.eqb (length x) 3).
    + destruct (Problem.rd x 2) as [x2| |]; cbn; try done.
      destruct (Problem.rd _ 0) as [a| |]; cbn; try done.
      destruct (Problem.wr _ 0 _) as [v3| |] eqn:E3; cbn; try done.
      apply wr_Done in E3 as [-> _].
      destruct (Problem.rd _ 1) as [b| |]; cbn; try done.
      destruct (Problem.wr _ 1 _) as [v4| |] eqn:E4; cbn; try done.
      apply wr_Done in E4 as [-> _].
      intros E5. apply wr_Done in E5 as [-> _].
      rewrite !length_insert. split; [done|]. intros i Hi H3.
      by rewrite !list_lookup_insert_ne by lia.
    + intros [= <-]. rewrite !length_insert. split; [done|]. intros i Hi H3.
      by rewrite !list_lookup_insert_ne by lia.
  - do 4 (try destruct p as [p|p|]; try done).
    all: cbn [Z.eqb Pos.eqb].
    all: try (intros [= <-]; split; [done | intros i Hi _; by apply Hz]).
    all: try (destruct (Problem.rd x 0) as [x0| |]; cbn; try done;
              destruct (Problem.rd x 1) as [x1| |]; cbn; try done).
    all: try (intros Hq; apply quadrants_Done in Hq;
              destruct Hq as [Hq|[Hq|[Hq|Hq]]]; by apply H01 in Hq).
    + (* problem 7 *)
      intros E. apply wr_Done in E as [-> _].
      rewrite length_insert. split; [done|]. intros i Hi H2.
      rewrite list_lookup_insert_ne by lia. by apply Hz.
    + (* problem 4 *)
      destruct (_ <? _)%float; [by apply H01|].
      destruct (_ <? _)%float; [by apply H01|].
      intros [= <-]. split; [done | intros i Hi _; by apply Hz].
Qed.

End ProblemFacts.

Lemma rho0_positive_witness :
  (exists r, Problem.rho0 3 3 [2; 1; 1]%float = Done r) /\
  (forall r, Problem.rho0 3 3 [2; 1; 1]%float = Done r ->
     (0 <? r)%float = true /\ (r <=? 1000)%float = true).
Proof.
  destruct (rho0_positive 3 3 [2; 1; 1]%float ltac:(lia)) as (H1 & H2 & _).
  split; [apply H1; cbn; lia | exact H2].
Defined.

Lemma gamma_func_above_one_witness :
  (exists g, Problem.gamma_func 9 [0.5; 0]%float = Done g) /\
  (forall g, Problem.gamma_func 9 [0.5; 0]%float = Done g ->
     (1.4 <=? g)%float = true /\ (0 <? g - 1)%float = true).
Proof.
  destruct (gamma_func_above_one 9 [0.5; 0]%float ltac:(lia)) as (H1 & H2 & _).
  split; [apply H1; cbn; lia | exact H2].
Defined.

Lemma e0_positive_witness :
  exists r,
    Problem.e0 9 3 PrimFloat.sqrt PrimFloat.sqrt [0.5; 0; 0]%float = Done r /\
    (0 <? r)%float = true.
Proof.
  apply (e0_positive 3 PrimFloat.sqrt PrimFloat.sqrt 9 [0.5; 0; 0]%float).
  - auto.
  - cbn. lia.
Defined.

Lemma e0_quadrants_witness :
  Problem.e0 6 2 PrimFloat.sqrt PrimFloat.sqrt [nan; 0.25]%float
  = Abort "Error in problem 5!" /\
  exists r,
    Problem.e0 6 2 PrimFloat.sqrt PrimFloat.sqrt [0.75; 0.25]%float = Done r /\
    (0 <? r)%float = true.
Proof.
  split.
  - apply (e0_quadrants 2 PrimFloat.sqrt PrimFloat.sqrt 6 nan 0.25 []);
      [auto | reflexivity].
  - apply (e0_quadrants 2 PrimFloat.sqrt PrimFloat.sqrt 6 0.75 0.25 []);
      [auto | reflexivity].
Defined.

Lemma unknown_problem_id_witness :
  Problem.rho0 11 2 [0.5; 0.5]%float
  = Abort "Bad number given for problem id!" /\
  Problem.gamma_func 11 [0.5; 0.5]%float
  = Abort "Bad number given for problem id!" /\
  Problem.e0 11 2 PrimFloat.sqrt PrimFloat.sqrt [0.5; 0.5]%float
  = Abort "Bad number given for problem id!" /\
  Problem.v0 11 PrimFloat.sqrt PrimFloat.sqrt PrimFloat.sqrt
    (fun a _ => a) [0.5; 0.5]%float [7; 7]%float
  = Abort "Bad number given for problem id!" /\
  Problem.details 11 2 false = Abort "Wrong problem specification!".
Proof.
  apply (unknown_problem_id 2 PrimFloat.sqrt PrimFloat.sqrt PrimFloat.sqrt
           PrimFloat.sqrt (fun a _ => a) 11 [0.5; 0.5]%float [7; 7]%float
           2 false).
  lia.
Defined.

Lemma v0_entries_past_the_first_witness :
  length [0; 0.25; 0]%float = length [7; 7; 7]%float /\
  forall i : nat,
    (i < length [7; 7; 7]%float)%nat ->
    if 7 =? 0 then (3 <= i)%nat -> [0; 0.25; 0]%float !! i = [7; 7; 7]%float !! i
    else (2 <= i)%nat -> [0; 0.25; 0]%float !! i = Some 0%float.
Proof.
  exact (v0_entries_past_the_first PrimFloat.sqrt
           (fun _ => 50%float) (fun _ => 0.25%float) (fun a _ => a) 7
           [0; 0; 0]%float [7; 7; 7]%float [0; 0.25; 0]%float eq_refl).
Defined.
